(** * autodiff: a shallow embedding of [autodiff/core.py]

    The module defines one class, [Variable], a vertex of a computation
    graph over Python numbers.  Objects live in a heap (an arena in
    allocation order), references are indices, and every method is a
    function in a state-and-exception monad over that heap. *)

From Stdlib Require Import ZArith Lia Bool List String FunctionalExtensionality.
From Stdlib Require Import Floats.
From stdpp Require Import base list.

Local Open Scope Z_scope.

(** ** Python numbers *)

(** The values [isinstance(v, (int, float))] accepts: unbounded integers
    and binary64 floats.  [bool] is a subclass of [int]; a boolean is
    stored as the integer it equals. *)
Inductive Num : Type :=
  | Int (z : Z)
  | Float (f : float).

(** The other objects a caller can hand to the constructor or that a
    native operation can return. *)
Inductive pyobj : Type :=
  | PInt (z : Z)
  | PFloat (f : float)
  | PBool (b : bool)
  | PStr (s : string)
  | PNone
  | PComplex.

(** The built-in exceptions the module can raise or let through. *)
Inductive exn : Type :=
  | ValueError
  | ZeroDivisionError
  | OverflowError
  | TypeError
  | AttributeError.

(** Outcome of a computation.  [Stuck] is not a Python outcome: it marks
    behaviour the embedding does not describe (arithmetic on a complex
    number, a reference that is not in the heap). *)
Inductive result (A : Type) : Type :=
  | Ok (a : A)
  | Raise (e : exn)
  | Stuck.
Arguments Ok {A} a.
Arguments Raise {A} e.
Arguments Stuck {A}.

Definition rbind {A B} (r : result A) (k : A -> result B) : result B :=
  match r with
  | Ok a => k a
  | Raise e => Raise e
  | Stuck => Stuck
  end.

Definition of_Num (n : Num) : pyobj :=
  match n with
  | Int z => PInt z
  | Float f => PFloat f
  end.

(** ** Native arithmetic *)

(** [float(z)]: the nearest binary64 value, ties to even;
    [OverflowError] when the integer is too large. *)
Definition float_of_Z (z : Z) : float :=
  SF2Prim (binary_normalize prec emax z 0 false).

Definition to_float (z : Z) : result float :=
  let f := float_of_Z z in
  if PrimFloat.is_infinity f then Raise OverflowError else Ok f.

Definition as_float (n : Num) : result float :=
  match n with
  | Int z => to_float z
  | Float f => Ok f
  end.

Definition spec_of_Z (z : Z) : spec_float :=
  match z with
  | Z0 => S754_zero false
  | Zpos p => S754_finite false p 0
  | Zneg p => S754_finite true p 0
  end.

(** [a / b] on two integers: the correctly rounded quotient. *)
Definition int_true_div (a b : Z) : result float :=
  if b =? 0 then Raise ZeroDivisionError
  else
    let f := SF2Prim (SFdiv prec emax (spec_of_Z a) (spec_of_Z b)) in
    if PrimFloat.is_infinity f then Raise OverflowError else Ok f.

(** A binary operator on mixed operands: exact on two integers,
    otherwise both sides are converted to float. *)
Definition arith (fz : Z -> Z -> Z) (ff : float -> float -> float)
    (a b : Num) : result Num :=
  match a, b with
  | Int x, Int y => Ok (Int (fz x y))
  | _, _ =>
      rbind (as_float a) (fun x =>
      rbind (as_float b) (fun y => Ok (Float (ff x y))))
  end.

Definition py_add : Num -> Num -> result Num := arith Z.add PrimFloat.add.
Definition py_sub : Num -> Num -> result Num := arith Z.sub PrimFloat.sub.
Definition py_mul : Num -> Num -> result Num := arith Z.mul PrimFloat.mul.

Definition py_truediv (a b : Num) : result Num :=
  match a, b with
  | Int x, Int y => rbind (int_true_div x y) (fun f => Ok (Float f))
  | _, _ =>
      rbind (as_float a) (fun x =>
      rbind (as_float b) (fun y =>
        if PrimFloat.eqb y PrimFloat.zero then Raise ZeroDivisionError
        else Ok (Float (PrimFloat.div x y))))
  end.

Definition py_neg (a : Num) : Num :=
  match a with
  | Int x => Int (- x)
  | Float f => Float (PrimFloat.opp f)
  end.

(** [a > 0] *)
Definition py_gt0 (a : Num) : bool :=
  match a with
  | Int x => 0 <? x
  | Float f => PrimFloat.ltb PrimFloat.zero f
  end.

(** What [float.__pow__] returns when it does not raise. *)
Inductive power : Type :=
  | IsFloat (f : float)
  | IsComplex.

Definition of_power (p : power) : pyobj :=
  match p with
  | IsFloat f => PFloat f
  | IsComplex => PComplex
  end.

(** What the interpreter and the [math] module supply and the repository
    does not define: [float.__pow__] (which returns a float, a complex
    number or raises) and [math.log], [math.sin], [math.cos] (which
    take an [int] or a [float] and return a float or raise). *)
Record Builtins : Type := {
  float_pow : float -> float -> result power;
  math_log : Num -> result float;
  math_sin : Num -> result float;
  math_cos : Num -> result float
}.

Section Native.
Variable B : Builtins.

(** [a ** b]: exact on integers with a non-negative exponent; an
    integer raised to a negative integer, and every mixed case, is
    [float.__pow__] on the converted operands. *)
Definition py_float_pow (fx fy : float) : result pyobj :=
  rbind (float_pow B fx fy) (fun p => Ok (of_power p)).

Definition py_pow (a b : Num) : result pyobj :=
  match a, b with
  | Int x, Int y =>
      if 0 <=? y then Ok (PInt (x ^ y))
      else rbind (to_float x) (fun fx =>
           rbind (to_float y) (fun fy => py_float_pow fx fy))
  | _, _ =>
      rbind (as_float a) (fun fx =>
      rbind (as_float b) (fun fy => py_float_pow fx fy))
  end.

Definition py_log (a : Num) : result Num :=
  rbind (math_log B a) (fun f => Ok (Float f)).
Definition py_sin (a : Num) : result Num :=
  rbind (math_sin B a) (fun f => Ok (Float f)).
Definition py_cos (a : Num) : result Num :=
  rbind (math_cos B a) (fun f => Ok (Float f)).
End Native.


(** ** The heap of [Variable] objects *)

Abbreviation ref := nat.

(** The functions that can be stored in [_operation]. *)
Inductive GradFunc : Type :=
  | Fn_add_backward
  | Fn_sub_backward
  | Fn_mul_backward
  | Fn_pow_backward
  | Fn_truediv_backward
  | Fn_sin_backward
  | Fn_cos_backward.

(** The class [Variable] ([Variable] is a reserved word here). *)
Record PyVariable : Type := mkVariable {
  value : Num;
  requires_grad : bool;
  grad : option Num;
  _operation : option GradFunc;
  _left_node : option ref;
  _right_node : option ref
}.

Abbreviation heap := (list PyVariable).

Definition with_grad (g : option Num) (v : PyVariable) : PyVariable :=
  mkVariable (value v) (requires_grad v) g
             (_operation v) (_left_node v) (_right_node v).

(** State and exceptions: a method takes the heap and returns an outcome
    together with the heap as it is when the method returns or raises. *)
Definition M (A : Type) : Type := heap -> result A * heap.

Definition ret {A} (a : A) : M A := fun h => (Ok a, h).
Definition raise {A} (e : exn) : M A := fun h => (Raise e, h).
Definition lift {A} (r : result A) : M A := fun h => (r, h).
Definition bind {A B} (m : M A) (k : A -> M B) : M B :=
  fun h =>
    match m h with
    | (Ok a, h') => k a h'
    | (Raise e, h') => (Raise e, h')
    | (Stuck, h') => (Stuck, h')
    end.

Declare Scope py_scope.
Delimit Scope py_scope with py.
Notation "x <- m ;; k" := (bind m (fun x => k))
  (at level 100, m at next level, right associativity) : py_scope.
Notation "m ;;; k" := (bind m (fun _ => k))
  (at level 100, right associativity) : py_scope.
Local Open Scope py_scope.

Definition get (r : ref) : M PyVariable :=
  fun h => match h !! r with
           | Some v => (Ok v, h)
           | None => (Stuck, h)
           end.

Definition set_grad (r : ref) (g : option Num) : M unit :=
  fun h => match h !! r with
           | Some v => (Ok tt, <[r := with_grad g v]> h)
           | None => (Stuck, h)
           end.

(** Attribute access on an optional operand: [None.attr] raises. *)
Definition deref (o : option ref) : M PyVariable :=
  match o with
  | Some r => get r
  | None => raise AttributeError
  end.

(** ** Construction *)

(** [VariableDescriptor._check_value] *)
Definition _check_value (value : pyobj) : result Num :=
  match value with
  | PInt z => Ok (Int z)
  | PFloat f => Ok (Float f)
  | PBool b => Ok (Int (Z.b2z b))
  | PStr _ | PNone | PComplex => Raise ValueError
  end.

(** [Variable.__init__]: the new object is the last of the heap. *)
Definition Variable_init (value : pyobj) (operation : option GradFunc)
    (left_node right_node : option ref) (requires_grad : bool) : M ref :=
  fun h =>
    match _check_value value with
    | Ok n =>
        (Ok (length h),
         h ++ [mkVariable n requires_grad
                 (if requires_grad then Some (Int 0) else None)
                 operation left_node right_node])
    | Raise e => (Raise e, h)
    | Stuck => (Stuck, h)
    end.

(** The second operand of an operator: a [Variable] or any other object. *)
Inductive operand : Type :=
  | OVar (r : ref)
  | ORaw (o : pyobj).

Definition num_result (r : result Num) : result pyobj :=
  rbind r (fun n => Ok (of_Num n)).

Section Methods.
Variable B : Builtins.

Definition _binary_general_calc (self : ref) (second_node : operand)
    (operation : Num -> Num -> result pyobj)
    (backward_operation : GradFunc) : M ref :=
  second <- match second_node with
            | OVar r => ret r
            | ORaw o => Variable_init o None None None true
            end ;;
  s <- get self ;;
  t <- get second ;;
  let rg := requires_grad s || requires_grad t in
  v <- lift (operation (value s) (value t)) ;;
  Variable_init v (if rg then Some backward_operation else None)
                (Some self) (Some second) rg.

Definition _unary_general_calc (self : ref)
    (operation : Num -> result Num)
    (backward_operation : GradFunc) : M ref :=
  s <- get self ;;
  v <- lift (num_result (operation (value s))) ;;
  Variable_init v
    (if requires_grad s then Some backward_operation else None)
    (Some self) None (requires_grad s).

Definition __add__ (self : ref) (other : operand) : M ref :=
  _binary_general_calc self other
    (fun a b => num_result (py_add a b)) Fn_add_backward.

Definition __radd__ (self : ref) (other : pyobj) : M ref :=
  __add__ self (ORaw other).

Definition __sub__ (self : ref) (other : operand) : M ref :=
  _binary_general_calc self other
    (fun a b => num_result (py_sub a b)) Fn_sub_backward.

Definition __mul__ (self : ref) (other : operand) : M ref :=
  _binary_general_calc self other
    (fun a b => num_result (py_mul a b)) Fn_mul_backward.

Definition __rmul__ (self : ref) (other : pyobj) : M ref :=
  __mul__ self (ORaw other).

Definition __pow__ (self : ref) (other : operand) : M ref :=
  _binary_general_calc self other (py_pow B) Fn_pow_backward.

Definition __rpow__ (self : ref) (other : pyobj) : M ref :=
  c <- Variable_init other None None None false ;;
  __pow__ c (OVar self).

Definition __truediv__ (self : ref) (other : operand) : M ref :=
  _binary_general_calc self other
    (fun a b => num_result (py_truediv a b)) Fn_truediv_backward.

Definition __rtruediv__ (self : ref) (other : pyobj) : M ref :=
  p <- __pow__ self (ORaw (PInt (-1))) ;;
  __mul__ p (ORaw other).

Definition __neg__ (self : ref) : M ref :=
  __mul__ self (ORaw (PInt (-1))).

Definition __rsub__ (self : ref) (other : pyobj) : M ref :=
  n <- __neg__ self ;;
  __add__ n (ORaw other).

Definition sin (self : ref) : M ref :=
  _unary_general_calc self (py_sin B) Fn_sin_backward.

Definition cos (self : ref) : M ref :=
  _unary_general_calc self (py_cos B) Fn_cos_backward.

(** ** Local derivative rules *)

(** A number used in further arithmetic; a complex number is outside
    the embedding. *)
Definition as_number (o : pyobj) : result Num :=
  match o with
  | PInt z => Ok (Int z)
  | PFloat f => Ok (Float f)
  | PBool b => Ok (Int (Z.b2z b))
  | PStr _ | PNone | PComplex => Stuck
  end.

(** [derivative * self.grad] and [target.grad + product], where a
    [grad] that is [None] is not a number. *)
Definition mul_grad (d : Num) (g : option Num) : result Num :=
  match g with
  | Some n => py_mul d n
  | None => Raise TypeError
  end.

Definition add_grad (g : option Num) (p : Num) : result Num :=
  match g with
  | Some n => py_add n p
  | None => Raise TypeError
  end.

(** [target.grad += derivative * self.grad] *)
Definition accumulate (target : ref) (derivative : Num) (self : ref)
    : M unit :=
  t <- get target ;;
  s <- get self ;;
  p <- lift (mul_grad derivative (grad s)) ;;
  g <- lift (add_grad (grad t) p) ;;
  set_grad target (Some g).

Definition _general_grad_calc (self : ref)
    (left_derivative right_derivative : Num) : M unit :=
  s <- get self ;;
  match _left_node s with
  | None => raise AttributeError
  | Some lr =>
      l <- get lr ;;
      (if requires_grad l
       then accumulate lr left_derivative self
       else ret tt) ;;;
      match _right_node s with
      | None => ret tt
      | Some rr =>
          r <- get rr ;;
          if requires_grad r
          then accumulate rr right_derivative self
          else ret tt
      end
  end.

Definition _add_backward (self : ref) : M unit :=
  _general_grad_calc self (Int 1) (Int 1).

Definition _sub_backward (self : ref) : M unit :=
  _general_grad_calc self (Int 1) (Int (-1)).

Definition _mul_backward (self : ref) : M unit :=
  s <- get self ;;
  r <- deref (_right_node s) ;;
  l <- deref (_left_node s) ;;
  _general_grad_calc self (value r) (value l).

(** [right_val * left_val ** (right_val - 1)] *)
Definition pow_left_derivative (left_val right_val : Num) : result Num :=
  rbind (py_sub right_val (Int 1)) (fun e =>
  rbind (py_pow B left_val e) (fun p =>
  rbind (as_number p) (fun p =>
  py_mul right_val p))).

(** [left_val ** right_val * log(left_val) if left_val > 0
     else float('nan')] *)
Definition pow_right_derivative (left_val right_val : Num) : result Num :=
  if py_gt0 left_val
  then rbind (py_pow B left_val right_val) (fun p =>
       rbind (as_number p) (fun p =>
       rbind (py_log B left_val) (fun l =>
       py_mul p l)))
  else Ok (Float PrimFloat.nan).

Definition _pow_backward (self : ref) : M unit :=
  s <- get self ;;
  l <- deref (_left_node s) ;;
  r <- deref (_right_node s) ;;
  let left_val := value l in
  let right_val := value r in
  ld <- lift (pow_left_derivative left_val right_val) ;;
  rd <- lift (pow_right_derivative left_val right_val) ;;
  _general_grad_calc self ld rd.

Definition _truediv_backward (self : ref) : M unit :=
  s <- get self ;;
  r <- deref (_right_node s) ;;
  ld <- lift (py_truediv (Int 1) (value r)) ;;
  l <- deref (_left_node s) ;;
  rd <- lift (rbind (py_pow B (value r) (Int 2)) (fun q =>
              rbind (as_number q) (fun q =>
              py_truediv (py_neg (value l)) q))) ;;
  _general_grad_calc self ld rd.

Definition _sin_backward (self : ref) : M unit :=
  s <- get self ;;
  l <- deref (_left_node s) ;;
  c <- lift (py_cos B (value l)) ;;
  _general_grad_calc self c (Int 0).

Definition _cos_backward (self : ref) : M unit :=
  s <- get self ;;
  l <- deref (_left_node s) ;;
  c <- lift (py_sin B (value l)) ;;
  _general_grad_calc self (py_neg c) (Int 0).

(** [curr_node._operation(curr_node)] *)
Definition call (f : GradFunc) (self : ref) : M unit :=
  match f with
  | Fn_add_backward => _add_backward self
  | Fn_sub_backward => _sub_backward self
  | Fn_mul_backward => _mul_backward self
  | Fn_pow_backward => _pow_backward self
  | Fn_truediv_backward => _truediv_backward self
  | Fn_sin_backward => _sin_backward self
  | Fn_cos_backward => _cos_backward self
  end.

(** ** The backward pass *)

(** What the loop does, in order: every [stack.append] (with the
    initial content of the stack) and every call of an [_operation]. *)
Inductive event : Type :=
  | Push (o : option ref)
  | Fire (r : ref).

(** A finished run: the events, the outcome and the final heap. *)
Definition run : Type := list event * (result unit * heap).

Definition emit (es : list event) (r : option run) : option run :=
  match r with
  | Some (tr, out) => Some (es ++ tr, out)
  | None => None
  end.

(** The [while stack:] loop.  The head of the list is the top of the
    stack ([stack.pop()] takes the last appended element).  [None]
    means the fuel ran out before the stack was empty. *)
Fixpoint backward_loop (fuel : nat) (stack : list (option ref))
    (h : heap) : option run :=
  match stack with
  | [] => Some ([], (Ok tt, h))
  | curr_node :: rest =>
      match fuel with
      | O => None
      | S fuel' =>
          match curr_node with
          | None => backward_loop fuel' rest h
          | Some c =>
              match h !! c with
              | None => Some ([], (Stuck, h))
              | Some v =>
                  match requires_grad v, _operation v with
                  | true, Some f =>
                      let pushes := [Push (_left_node v);
                                     Push (_right_node v)] in
                      match call f c h with
                      | (Ok _, h') =>
                          emit (pushes ++ [Fire c])
                            (backward_loop fuel'
                               (_right_node v :: _left_node v :: rest) h')
                      | (Raise e, h') =>
                          Some (pushes ++ [Fire c], (Raise e, h'))
                      | (Stuck, h') =>
                          Some (pushes ++ [Fire c], (Stuck, h'))
                      end
                  | _, _ => backward_loop fuel' rest h
                  end
              end
          end
      end
  end.

Definition backward (fuel : nat) (self : ref) (h : heap) : option run :=
  match set_grad self (Some (Int 1)) h with
  | (Ok _, h1) => emit [Push (Some self)] (backward_loop fuel [Some self] h1)
  | (Raise e, h1) => Some ([], (Raise e, h1))
  | (Stuck, h1) => Some ([], (Stuck, h1))
  end.

Definition zero_grad (self : ref) : M unit :=
  s <- get self ;;
  if negb (requires_grad s) then ret tt
  else set_grad self (Some (Int 0)).
End Methods.

(** ** Reading runs and heaps *)

Definition fires_of (r : ref) (tr : list event) : nat :=
  length (List.filter (fun e => match e with
                           | Fire r' => Nat.eqb r r'
                           | Push _ => false
                           end) tr).

Definition pushes_of (tr : list event) : nat :=
  length (List.filter (fun e => match e with
                           | Push _ => true
                           | Fire _ => false
                           end) tr).

Definition node_pushes_of (tr : list event) : nat :=
  length (List.filter (fun e => match e with
                           | Push (Some _) => true
                           | _ => false
                           end) tr).

Definition grad_at (h : heap) (r : ref) : option (option Num) :=
  grad <$> h !! r.

(** A leaf as [Variable(value, requires_grad=rg)] leaves it. *)
Definition leaf (n : Num) (rg : bool) : PyVariable :=
  mkVariable n rg (if rg then Some (Int 0) else None) None None None.

(** ** Programs of the specification and of the test suite *)

(** [x = Variable(x0); z = x + x; w = z * z] *)
Definition diamond (x0 : pyobj) : M ref :=
  x <- Variable_init x0 None None None true ;;
  z <- __add__ x (OVar x) ;;
  __mul__ z (OVar z).

(** [x = Variable(5, requires_grad=False); f = x + 2] *)
Definition const_plus_number : M ref :=
  x <- Variable_init (PInt 5) None None None false ;;
  __add__ x (ORaw (PInt 2)).


(** [x = Variable(5); x / 0] *)
Definition division_by_zero : M ref :=
  x <- Variable_init (PInt 5) None None None true ;;
  __truediv__ x (ORaw (PInt 0)).

(** [x = Variable(2); y = Variable(3); f = x * y + x ** 2 - 1 / y] *)
Definition example1 (B : Builtins) : M ref :=
  x <- Variable_init (PInt 2) None None None true ;;
  y <- Variable_init (PInt 3) None None None true ;;
  xy <- __mul__ x (OVar y) ;;
  x2 <- __pow__ B x (ORaw (PInt 2)) ;;
  s <- __add__ xy (OVar x2) ;;
  q <- __rtruediv__ B y (PInt 1) ;;
  __sub__ s (OVar q).

(** * Properties *)

(** ** Construction *)

(** C7: constructing a leaf from an object that is not an [int] or a
    [float] (a string, [None], a complex number) raises [ValueError], the
    error the specification calls InvalidValueError, and allocates
    nothing; constructing it from an [int], a [float] or a [bool]
    succeeds, and the new leaf is appended to the heap with the value it
    was given, [grad] 0 or absent as [requires_grad] says, and no
    operation and no operands. *)
Theorem C7_leaf_construction (value : pyobj) (rg : bool) (h : heap) :
  match value with
  | PInt _ | PFloat _ | PBool _ =>
      exists n, _check_value value = Ok n /\
                as_number value = Ok n /\
                Variable_init value None None None rg h
                = (Ok (length h), h ++ [leaf n rg])
  | PStr _ | PNone | PComplex =>
      Variable_init value None None None rg h = (Raise ValueError, h)
  end.
Proof.
  destruct value; unfold Variable_init; cbn; eauto.
Qed.

(** ** zero_grad *)

Lemma set_grad_lookup (r : ref) (g : option Num) (h : heap) (v : PyVariable) :
  h !! r = Some v ->
  set_grad r g h = (Ok tt, <[r := with_grad g v]> h).
Proof. intros E. unfold set_grad. now rewrite E. Qed.

(** C8: on a node of the heap, [zero_grad] returns normally; with
    [requires_grad] true the node's [grad] becomes 0 whatever it was,
    with [requires_grad] false the heap is left as it is; every other
    node, operands included, is untouched; and a second call changes
    nothing more. *)
Theorem C8_zero_grad (h : heap) (self : ref) (v : PyVariable) :
  h !! self = Some v ->
  exists h',
    zero_grad self h = (Ok tt, h') /\
    h' !! self
    = Some (with_grad (if requires_grad v then Some (Int 0) else grad v) v) /\
    (forall r, r <> self -> h' !! r = h !! r) /\
    (requires_grad v = false -> h' = h) /\
    zero_grad self h' = (Ok tt, h').
Proof.
  intros E.
  assert (L : (self < length h)%nat) by (eapply lookup_lt_Some; eauto).
  unfold zero_grad, bind, get. rewrite E.
  destruct (requires_grad v) eqn:R.
  - exists (<[self := with_grad (Some (Int 0)) v]> h).
    change (negb true) with false. cbv iota.
    rewrite (set_grad_lookup _ _ _ _ E).
    rewrite list_lookup_insert_eq by exact L.
    repeat split; try congruence.
    + intros r Hr. now rewrite list_lookup_insert_ne by congruence.
    + change (requires_grad (with_grad (Some (Int 0)) v)) with (requires_grad v).
      rewrite R. change (negb true) with false. cbv iota.
      unfold set_grad.
      rewrite list_lookup_insert_eq by exact L.
      now rewrite list_insert_insert_eq.
  - exists h. change (negb false) with true. cbv iota. unfold ret. rewrite E, R.
    repeat split; auto.
    destruct v; cbn in *; now subst.
Qed.

Lemma C8_zero_grad_witness :
  exists h',
    zero_grad 0%nat [mkVariable (Int 10) true (Some (Int 7)) None None None]
    = (Ok tt, h') /\
    grad_at h' 0%nat = Some (Some (Int 0)).
Proof.
  destruct (C8_zero_grad
              [mkVariable (Int 10) true (Some (Int 7)) None None None]
              0%nat _ eq_refl) as (h' & E & L & _).
  exists h'. split; [exact E|]. unfold grad_at. now rewrite L.
Defined.
(** ** The shared-node graph *)

(** C1: the graph [z = x + x; w = z * z] over an integer leaf is built
    as three nodes, and [w.backward()] appends ten entries of work: it
    calls the operation of [w] once and the operation of the shared node
    [z] twice, once for each time [w] pushed it.  [x.grad] ends as
    [16 * x.value], twice the derivative [8 * x.value]. *)
Theorem C1_diamond_refires_shared_node (B : Builtins) (x0 : Z) :
  exists h tr h',
    diamond (PInt x0) [] = (Ok 2%nat, h) /\
    backward B 7 2%nat h = Some (tr, (Ok tt, h')) /\
    fires_of 2%nat tr = 1%nat /\
    fires_of 1%nat tr = 2%nat /\
    grad_at h' 1%nat = Some (Some (Int (4 * x0))) /\
    grad_at h' 0%nat = Some (Some (Int (16 * x0))) /\
    (x0 <> 0 -> grad_at h' 0%nat <> Some (Some (Int (8 * x0)))).
Proof.
  Local Opaque Z.add Z.mul.
  eexists _, _, _.
  split; [lazy; reflexivity|].
  split; [lazy; reflexivity|].
  split; [reflexivity|]. split; [reflexivity|].
  Local Transparent Z.add Z.mul.
  unfold grad_at; cbn [fmap option_fmap option_map lookup list_lookup grad].
  split; [do 3 f_equal; lia|].
  split; [do 3 f_equal; lia|].
  intros Hx E. injection E as E. lia.
Qed.

(** ** Binary operations: what [_binary_general_calc] builds *)

Definition result_node (v : Num) (f : GradFunc) (l r : ref) (rg : bool)
    : PyVariable :=
  mkVariable v rg (if rg then Some (Int 0) else None)
             (if rg then Some f else None) (Some l) (Some r).

Lemma Variable_init_number (v : pyobj) (n : Num) op l r rg (h : heap) :
  _check_value v = Ok n ->
  Variable_init v op l r rg h
  = (Ok (length h),
     h ++ [mkVariable n rg (if rg then Some (Int 0) else None) op l r]).
Proof. intros E. unfold Variable_init. now rewrite E. Qed.

Lemma lookup_snoc_old {A} (l : list A) (x : A) (i : nat) (y : A) :
  l !! i = Some y -> (l ++ [x]) !! i = Some y.
Proof. intros E. apply lookup_app_l_Some. exact E. Qed.

Lemma lookup_snoc_new {A} (l : list A) (x : A) :
  (l ++ [x]) !! length l = Some x.
Proof. apply list_lookup_middle. reflexivity. Qed.

(** Both operands are nodes: the operands are read, nothing is written,
    and the result is appended. *)
Lemma binary_calc_var (self r : ref) op f (h : heap) (s t : PyVariable) :
  h !! self = Some s -> h !! r = Some t ->
  _binary_general_calc self (OVar r) op f h
  = match op (value s) (value t) with
    | Ok v => Variable_init v
                (if requires_grad s || requires_grad t then Some f else None)
                (Some self) (Some r) (requires_grad s || requires_grad t) h
    | Raise e => (Raise e, h)
    | Stuck => (Stuck, h)
    end.
Proof.
  intros Es Et. unfold _binary_general_calc, bind, ret, get, lift.
  rewrite Es, Et. destruct (op (value s) (value t)); reflexivity.
Qed.

(** The second operand is a number: it becomes a leaf first, built with
    the constructor's default [requires_grad=True]. *)
Lemma binary_calc_raw (self : ref) (o : pyobj) (n : Num) op f (h : heap)
    (s : PyVariable) :
  h !! self = Some s -> _check_value o = Ok n ->
  _binary_general_calc self (ORaw o) op f h
  = match op (value s) n with
    | Ok v => Variable_init v (Some f) (Some self) (Some (length h)) true
                (h ++ [leaf n true])
    | Raise e => (Raise e, h ++ [leaf n true])
    | Stuck => (Stuck, h ++ [leaf n true])
    end.
Proof.
  intros Es En. unfold _binary_general_calc, bind, ret, get, lift.
  rewrite (Variable_init_number _ _ _ _ _ _ _ En).
  rewrite (lookup_snoc_old _ _ _ _ Es), lookup_snoc_new.
  cbn [value requires_grad leaf]. rewrite orb_true_r.
  destruct (op (value s) n); reflexivity.
Qed.

(** The result's [requires_grad] is the disjunction of the operands'. *)
Lemma binary_calc_requires_grad (self : ref) (second : operand) op f
    (h h' : heap) (w : ref) :
  _binary_general_calc self second op f h = (Ok w, h') ->
  exists s t res l r,
    h' !! l = Some s /\ h' !! r = Some t /\ h' !! w = Some res /\
    _left_node res = Some l /\ _right_node res = Some r /\
    requires_grad res = requires_grad s || requires_grad t /\
    _operation res = (if requires_grad res then Some f else None).
Proof.
  unfold _binary_general_calc, bind, ret, get, lift.
  destruct second as [r|o].
  - destruct (h !! self) as [s|] eqn:Es; [|discriminate].
    destruct (h !! r) as [t|] eqn:Et; [|discriminate].
    destruct (op (value s) (value t)) as [v| |]; try discriminate.
    unfold Variable_init. destruct (_check_value v); try discriminate.
    intros [= <- <-]. eexists s, t, _, self, r.
    rewrite !(lookup_snoc_old _ _ _ _ Es), !(lookup_snoc_old _ _ _ _ Et).
    rewrite lookup_snoc_new. cbn. repeat split; reflexivity.
  - unfold Variable_init at 1.
    destruct (_check_value o) as [n| |]; try discriminate.
    destruct ((h ++ _) !! self) as [s|] eqn:Es; [|discriminate].
    rewrite lookup_snoc_new.
    destruct (op (value s) _) as [v| |]; try discriminate.
    unfold Variable_init. destruct (_check_value v); try discriminate.
    intros [= <- <-]. eexists s, _, _, self, (length h).
    rewrite !(lookup_snoc_old _ _ _ _ Es).
    rewrite (lookup_snoc_old _ _ _ _ (lookup_snoc_new _ _)).
    rewrite lookup_snoc_new. cbn. repeat split; reflexivity.
Qed.

(** C2: in [Variable(5, requires_grad=False) + 2] the number 2 is
    promoted to a leaf whose [requires_grad] is true, so the sum, whose
    [requires_grad] is the disjunction of its operands', has
    [requires_grad] true and carries [_add_backward]; and this is what
    every binary operator does with a number on the right of a node that
    does not require a gradient. *)
Theorem C2_number_promoted_with_requires_grad :
  (exists h,
     const_plus_number [] = (Ok 2%nat, h) /\
     h !! 0%nat = Some (leaf (Int 5) false) /\
     h !! 1%nat = Some (leaf (Int 2) true) /\
     h !! 2%nat = Some (result_node (Int 7) Fn_add_backward 0 1 true)) /\
  (forall self o n op f h s v m,
     h !! self = Some s -> requires_grad s = false ->
     _check_value o = Ok n -> op (value s) n = Ok v ->
     _check_value v = Ok m ->
     _binary_general_calc self (ORaw o) op f h
     = (Ok (S (length h)),
        h ++ [leaf n true; result_node m f self (length h) true])).
Proof.
  split.
  - eexists. split; [vm_compute; reflexivity|]. repeat split.
  - intros self o n op f h s v m Es _ En Ev Em.
    rewrite (binary_calc_raw _ _ _ _ _ _ _ Es En), Ev.
    rewrite (Variable_init_number _ _ _ _ _ _ _ Em).
    rewrite length_app, <- app_assoc. cbn [length app].
    do 2 f_equal. lia.
Qed.

(** The sibling path: [__rpow__] promotes the number with
    [requires_grad=False]. *)
Lemma rpow_promotes_without_grad (B : Builtins) (self : ref) (o : pyobj)
    (n : Num) (h : heap) :
  _check_value o = Ok n ->
  __rpow__ B self o h
  = __pow__ B (length h) (OVar self) (h ++ [leaf n false]).
Proof.
  intros En. unfold __rpow__, bind.
  now rewrite (Variable_init_number _ _ _ _ _ _ _ En).
Qed.

(** ** backward() on a node that does not require a gradient *)

Lemma backward_loop_nil (B : Builtins) (fuel : nat) (h : heap) :
  backward_loop B fuel [] h = Some ([], (Ok tt, h)).
Proof. destruct fuel; reflexivity. Qed.

(** C3: [backward()] called on a node whose [requires_grad] is false
    stores 1 in that node's [grad]: the assignment [self.grad = 1] is
    not guarded.  The loop then pops the node, finds nothing to
    propagate and stops. *)
Theorem C3_backward_on_constant_sets_grad (B : Builtins) (fuel : nat)
    (h : heap) (self : ref) (v : PyVariable) :
  h !! self = Some v ->
  requires_grad v = false ->
  backward B (S fuel) self h
  = Some ([Push (Some self)],
          (Ok tt, <[self := with_grad (Some (Int 1)) v]> h)).
Proof.
  intros E R.
  assert (L : (self < length h)%nat) by (eapply lookup_lt_Some; eauto).
  unfold backward. rewrite (set_grad_lookup _ _ _ _ E).
  cbn [backward_loop]. rewrite list_lookup_insert_eq by exact L.
  cbn [requires_grad with_grad]. rewrite R.
  now rewrite backward_loop_nil.
Qed.

Lemma C3_backward_on_constant_witness :
  backward {| float_pow := fun _ _ => Stuck; math_log := fun _ => Stuck;
              math_sin := fun _ => Stuck; math_cos := fun _ => Stuck |}
           1 0%nat [leaf (Int 5) false]
  = Some ([Push (Some 0%nat)],
          (Ok tt, [mkVariable (Int 5) false (Some (Int 1)) None None None])).
Proof.
  exact (C3_backward_on_constant_sets_grad _ 0 [leaf (Int 5) false] 0%nat
           (leaf (Int 5) false) eq_refl eq_refl).
Defined.

(** ** What a backward pass can change *)

(** [h'] is [h] after some gradient accumulation: the same nodes, each
    with the same fields except possibly [grad], and [grad] is the same
    too on every node that does not require a gradient. *)
Definition evolves (h h' : heap) : Prop :=
  length h' = length h /\
  forall r v, h !! r = Some v ->
    exists g, h' !! r = Some (with_grad g v) /\
              (requires_grad v = false -> g = grad v).

Lemma with_grad_same (v : PyVariable) : with_grad (grad v) v = v.
Proof. now destruct v. Qed.

Lemma with_grad_twice (g g' : option Num) (v : PyVariable) :
  with_grad g (with_grad g' v) = with_grad g v.
Proof. reflexivity. Qed.

Lemma evolves_refl (h : heap) : evolves h h.
Proof.
  split; [reflexivity|]. intros r v E. exists (grad v).
  now rewrite with_grad_same.
Qed.

Lemma evolves_trans (h1 h2 h3 : heap) :
  evolves h1 h2 -> evolves h2 h3 -> evolves h1 h3.
Proof.
  intros [L12 H12] [L23 H23]. split; [congruence|].
  intros r v E. destruct (H12 r v E) as (g & E2 & K2).
  destruct (H23 r _ E2) as (g' & E3 & K3).
  exists g'. rewrite with_grad_twice in E3. split; [exact E3|].
  intros R. rewrite (K3 R). cbn. auto.
Qed.

Lemma evolves_set_grad (h : heap) (r : ref) (v : PyVariable) (g : option Num) :
  h !! r = Some v -> requires_grad v = true ->
  evolves h (<[r := with_grad g v]> h).
Proof.
  intros E R. split; [apply length_insert|].
  intros r' v' E'. destruct (decide (r = r')) as [<-|N].
  - assert (v' = v) as -> by congruence. exists g.
    rewrite list_lookup_insert_eq by (eapply lookup_lt_Some; eauto).
    split; [reflexivity|]. congruence.
  - exists (grad v'). rewrite list_lookup_insert_ne by exact N.
    now rewrite with_grad_same.
Qed.

(** A method run from [h] leaves a heap that [h] evolves to. *)
Definition keeps {A} (m : M A) (h : heap) : Prop := evolves h (snd (m h)).

Lemma keeps_ret {A} (a : A) (h : heap) : keeps (ret a) h.
Proof. apply evolves_refl. Qed.

Lemma keeps_raise {A} (e : exn) (h : heap) : keeps (@raise A e) h.
Proof. apply evolves_refl. Qed.

Lemma keeps_lift {A} (r : result A) (h : heap) : keeps (lift r) h.
Proof. apply evolves_refl. Qed.

Lemma keeps_bind {A C} (m : M A) (k : A -> M C) (h : heap) :
  keeps m h ->
  (forall a h', m h = (Ok a, h') -> keeps (k a) h') ->
  keeps (bind m k) h.
Proof.
  unfold keeps, bind. intros Hm Hk.
  destruct (m h) as [[a|e|] h'] eqn:E; cbn in *; auto.
  eapply evolves_trans; [exact Hm|]. now apply Hk.
Qed.

Lemma keeps_get_bind {C} (r : ref) (k : PyVariable -> M C) (h : heap) :
  (forall v, h !! r = Some v -> keeps (k v) h) ->
  keeps (bind (get r) k) h.
Proof.
  intros Hk. unfold keeps, bind, get.
  destruct (h !! r) as [v|] eqn:E; [now apply Hk|apply evolves_refl].
Qed.

Lemma keeps_deref_bind {C} (o : option ref) (k : PyVariable -> M C) (h : heap) :
  (forall r v, o = Some r -> h !! r = Some v -> keeps (k v) h) ->
  keeps (bind (deref o) k) h.
Proof.
  intros Hk. destruct o as [r|]; [|apply evolves_refl].
  apply keeps_get_bind. intros v E. now apply (Hk r).
Qed.

Lemma keeps_lift_bind {A C} (x : result A) (k : A -> M C) (h : heap) :
  (forall a, x = Ok a -> keeps (k a) h) ->
  keeps (bind (lift x) k) h.
Proof.
  intros Hk. unfold keeps, bind, lift.
  destruct x; [now apply Hk|apply evolves_refl..].
Qed.

Lemma keeps_accumulate (target self : ref) (d : Num) (h : heap) (t : PyVariable) :
  h !! target = Some t -> requires_grad t = true ->
  keeps (accumulate target d self) h.
Proof.
  intros E R. unfold accumulate.
  apply keeps_get_bind; intros t' E'.
  apply keeps_get_bind; intros s Es.
  apply keeps_lift_bind; intros p _.
  apply keeps_lift_bind; intros g _.
  unfold keeps. rewrite (set_grad_lookup _ _ _ _ E).
  now apply evolves_set_grad.
Qed.

Lemma keeps_general_grad_calc (self : ref) (ld rd : Num) (h : heap) :
  keeps (_general_grad_calc self ld rd) h.
Proof.
  unfold _general_grad_calc.
  apply keeps_get_bind; intros s Es.
  destruct (_left_node s) as [lr|]; [|apply keeps_raise].
  apply keeps_get_bind; intros l El.
  apply keeps_bind.
  - destruct (requires_grad l) eqn:R;
      [eapply keeps_accumulate; eauto|apply keeps_ret].
  - intros _ h' _.
    destruct (_right_node s) as [rr|]; [|apply keeps_ret].
    apply keeps_get_bind; intros r Er.
    destruct (requires_grad r) eqn:R;
      [eapply keeps_accumulate; eauto|apply keeps_ret].
Qed.

Lemma keeps_call (B : Builtins) (f : GradFunc) (self : ref) (h : heap) :
  keeps (call B f self) h.
Proof.
  destruct f; cbn [call];
    unfold _add_backward, _sub_backward, _mul_backward, _pow_backward,
           _truediv_backward, _sin_backward, _cos_backward;
    repeat first
      [ apply keeps_general_grad_calc
      | apply keeps_get_bind; intros ? ?
      | apply keeps_deref_bind; intros ? ? ? ?
      | apply keeps_lift_bind; intros ? ? ].
Qed.

Lemma call_evolves (B : Builtins) (f : GradFunc) (self : ref) (h h' : heap)
    (r : result unit) :
  call B f self h = (r, h') -> evolves h h'.
Proof.
  intros E. pose proof (keeps_call B f self h) as K.
  unfold keeps in K. now rewrite E in K.
Qed.

Lemma backward_loop_evolves (B : Builtins) (fuel : nat) :
  forall stack h tr out h',
    backward_loop B fuel stack h = Some (tr, (out, h')) -> evolves h h'.
Proof.
  induction fuel as [|fuel IH]; intros stack h tr out h'.
  - destruct stack; cbn; [|discriminate].
    intros [= _ _ <-]. apply evolves_refl.
  - destruct stack as [|[c|] rest]; cbn [backward_loop].
    + intros [= _ _ <-]. apply evolves_refl.
    + destruct (h !! c) as [v|] eqn:E;
        [|intros [= _ _ <-]; apply evolves_refl].
      destruct (requires_grad v); [|apply IH].
      destruct (_operation v) as [f|]; [|apply IH].
      destruct (call B f c h) as [[[]|e|] h1] eqn:C;
        try (intros [= _ _ <-]; eapply call_evolves; eauto).
      destruct (backward_loop B fuel _ h1) as [[tr' [out' h2]]|] eqn:L;
        cbn [emit]; [|discriminate].
      intros [= _ _ <-]. eapply evolves_trans.
      * eapply call_evolves; eauto.
      * eapply IH; eauto.
    + apply IH.
Qed.

(** Any node other than the root that does not require a gradient has,
    after a backward pass, the [grad] it had before. *)
Lemma backward_keeps_grad_of_constants (B : Builtins) (fuel : nat)
    (self : ref) (h h' : heap) tr out (r : ref) (v : PyVariable) :
  backward B fuel self h = Some (tr, (out, h')) ->
  r <> self -> h !! r = Some v -> requires_grad v = false ->
  h' !! r = Some v.
Proof.
  unfold backward, set_grad. intros E N Er R.
  destruct (h !! self) as [s|] eqn:Es.
  - destruct (backward_loop B fuel _ _) as [[tr' [out' h2]]|] eqn:L;
      cbn [emit] in E; [|discriminate].
    injection E as _ _ <-.
    apply backward_loop_evolves in L. destruct L as [_ L].
    destruct (L r v) as (g & E2 & K).
    + rewrite list_lookup_insert_ne by congruence. exact Er.
    + rewrite E2, (K R). now rewrite with_grad_same.
  - injection E as _ _ <-. exact Er.
Qed.

(** ** A forward computation that raises *)

(** The number the second operand stands for: the value of the node, or
    the raw number itself. *)
Definition operand_value (h : heap) (second : operand) : option Num :=
  match second with
  | OVar r => value <$> h !! r
  | ORaw o => match _check_value o with
              | Ok n => Some n
              | _ => None
              end
  end.

(** C6: when the native operation of a binary operator raises on the
    operands' values, the operator raises that same error and returns no
    node; every node that existed before is still there, unchanged; and
    the only object that may have been allocated is the leaf a raw
    number was promoted to, which has no operation and no operands. *)
Theorem C6_forward_error_leaves_graph (self : ref) (second : operand)
    (op : Num -> Num -> result pyobj) (f : GradFunc) (h : heap)
    (s : PyVariable) (n : Num) (e : exn) :
  h !! self = Some s ->
  operand_value h second = Some n ->
  op (value s) n = Raise e ->
  exists h',
    _binary_general_calc self second op f h = (Raise e, h') /\
    (forall r v, h !! r = Some v -> h' !! r = Some v) /\
    (h' = h \/ h' = h ++ [leaf n true]).
Proof.
  intros Es En Eop. destruct second as [r|o]; cbn in En.
  - destruct (h !! r) as [t|] eqn:Et; [|discriminate].
    injection En as <-.
    rewrite (binary_calc_var _ _ _ _ _ _ _ Es Et), Eop.
    exists h. auto.
  - destruct (_check_value o) as [m| |] eqn:Eo; try discriminate.
    injection En as ->.
    rewrite (binary_calc_raw _ _ _ _ _ _ _ Es Eo), Eop.
    exists (h ++ [leaf n true]). repeat split; auto.
    intros r v E. now apply lookup_snoc_old.
Qed.

Lemma C6_forward_error_witness :
  exists h',
    division_by_zero [] = (Raise ZeroDivisionError, h') /\
    (forall r v, [leaf (Int 5) true] !! r = Some v -> h' !! r = Some v) /\
    (h' = [leaf (Int 5) true] \/
     h' = [leaf (Int 5) true] ++ [leaf (Int 0) true]).
Proof.
  exact (C6_forward_error_leaves_graph 0%nat (ORaw (PInt 0))
           (fun a b => num_result (py_truediv a b)) Fn_truediv_backward
           [leaf (Int 5) true] (leaf (Int 5) true) (Int 0) ZeroDivisionError
           eq_refl eq_refl eq_refl).
Defined.

(** Dividing any number by the integer 0 or by a float zero raises. *)
Lemma truediv_by_zero (a : Num) :
  py_truediv a (Int 0) = Raise ZeroDivisionError \/
  py_truediv a (Int 0) = Raise OverflowError.
Proof.
  destruct a as [z|x]; cbn; [now left|].
  left. reflexivity.
Qed.

(** ** Termination of the backward pass *)

(** The test of the loop: the node propagates when it requires a
    gradient and carries an operation. *)
Definition fires (v : PyVariable) : bool :=
  requires_grad v &&
  match _operation v with
  | Some _ => true
  | None => false
  end.

(** The graph is acyclic in the way construction makes it: a node only
    refers to nodes allocated before it. *)
Definition ordered (h : heap) : Prop :=
  forall (i : ref) (v : PyVariable) (c : ref),
    h !! i = Some v ->
    _left_node v = Some c \/ _right_node v = Some c ->
    (c < i)%nat.

(** [weight ext none n h o] counts, below the stack entry [o], one for
    each node reached along operand edges out of the nodes that [ext]
    selects, and [none] for each absent operand met.  [n] bounds the
    depth explored; the length of an ordered heap is enough. *)
Fixpoint weight (ext : PyVariable -> bool) (none : nat) (n : nat)
    (h : heap) (o : option ref) : nat :=
  match o with
  | None => none
  | Some r =>
      match n with
      | O => 1
      | S n' =>
          match h !! r with
          | None => 1
          | Some v =>
              if ext v
              then 1 + weight ext none n' h (_left_node v)
                     + weight ext none n' h (_right_node v)
              else 1
          end
      end
  end%nat.

(** The number of paths from [r] to a node (the empty path included)
    along the operand edges of the graph. *)
Definition paths (h : heap) (r : ref) : nat :=
  weight (fun _ => true) 0 (length h) h (Some r).

(** The same, along the edges the loop follows. *)
Definition reach (h : heap) (o : option ref) : nat :=
  weight fires 0 (length h) h o.

(** The number of iterations the loop spends on a stack entry. *)
Definition work (h : heap) (o : option ref) : nat :=
  weight fires 1 (length h) h o.

Definition some1 (o : option ref) : nat :=
  match o with
  | Some _ => 1
  | None => 0
  end.

Definition all_fires (tr : list event) : nat :=
  length (List.filter (fun e => match e with
                                | Fire _ => true
                                | Push _ => false
                                end) tr).

(** The shape of the graph: everything but [grad]. *)
Definition same_shape (h h' : heap) : Prop :=
  length h' = length h /\
  forall r v, h !! r = Some v -> exists g, h' !! r = Some (with_grad g v).

Lemma same_shape_refl (h : heap) : same_shape h h.
Proof.
  split; [reflexivity|]. intros r v E. exists (grad v).
  now rewrite with_grad_same.
Qed.

Lemma same_shape_trans (h1 h2 h3 : heap) :
  same_shape h1 h2 -> same_shape h2 h3 -> same_shape h1 h3.
Proof.
  intros [L12 H12] [L23 H23]. split; [congruence|].
  intros r v E. destruct (H12 r v E) as (g & E2).
  destruct (H23 r _ E2) as (g' & E3). exists g'. exact E3.
Qed.

Lemma evolves_same_shape (h h' : heap) : evolves h h' -> same_shape h h'.
Proof.
  intros [L H]. split; [exact L|]. intros r v E.
  destruct (H r v E) as (g & E' & _). eauto.
Qed.

Lemma same_shape_set_grad (h : heap) (r : ref) (v : PyVariable) (g : option Num) :
  h !! r = Some v -> same_shape h (<[r := with_grad g v]> h).
Proof.
  intros E. split; [apply length_insert|].
  intros r' v' E'. destruct (decide (r = r')) as [<-|N].
  - assert (v' = v) as -> by congruence. exists g.
    now rewrite list_lookup_insert_eq by (eapply lookup_lt_Some; eauto).
  - exists (grad v'). rewrite list_lookup_insert_ne by exact N.
    now rewrite with_grad_same.
Qed.

Lemma same_shape_lookup (h0 h : heap) (r : ref) (v : PyVariable) :
  same_shape h0 h -> h !! r = Some v ->
  exists v0 g, h0 !! r = Some v0 /\ v = with_grad g v0.
Proof.
  intros [L H] E.
  assert (Lr : (r < length h0)%nat)
    by (rewrite <- L; eapply lookup_lt_Some; eauto).
  destruct (lookup_lt_is_Some_2 _ _ Lr) as [v0 E0].
  destruct (H r v0 E0) as (g & E'). exists v0, g. split; congruence.
Qed.

Section Weight.
Variable ext : PyVariable -> bool.
Variable none : nat.
Variable h : heap.
Hypothesis Hord : ordered h.

Lemma weight_stable (n : nat) :
  forall (m : nat) (r : ref),
    (r < n)%nat -> (r < m)%nat ->
    weight ext none n h (Some r) = weight ext none m h (Some r).
Proof.
  induction n as [|n IH]; intros m r Hn Hm; [lia|].
  destruct m as [|m]; [lia|]. cbn [weight].
  destruct (h !! r) as [v|] eqn:E; [|reflexivity].
  destruct (ext v); [|reflexivity].
  assert (K : forall o, (o = _left_node v \/ o = _right_node v) ->
              weight ext none n h o = weight ext none m h o).
  { intros [c|] Ho; [|now destruct n, m].
    assert ((c < r)%nat) by (eapply Hord; [exact E|]; intuition congruence).
    apply IH; lia. }
  rewrite (K (_left_node v)), (K (_right_node v)) by auto. reflexivity.
Qed.

Lemma weight_unfold (r : ref) (v : PyVariable) :
  h !! r = Some v ->
  weight ext none (length h) h (Some r)
  = if ext v
    then (1 + weight ext none (length h) h (_left_node v)
            + weight ext none (length h) h (_right_node v))%nat
    else 1%nat.
Proof.
  intros E.
  assert (L : (r < length h)%nat) by (eapply lookup_lt_Some; eauto).
  destruct (length h) as [|n] eqn:Len; [lia|]. cbn [weight]. rewrite E.
  destruct (ext v); [|reflexivity].
  assert (K : forall o, (o = _left_node v \/ o = _right_node v) ->
              weight ext none n h o = weight ext none (S n) h o).
  { intros [c|] Ho; [|now destruct n].
    assert ((c < r)%nat) by (eapply Hord; [exact E|]; intuition congruence).
    apply weight_stable; lia. }
  rewrite (K (_left_node v)), (K (_right_node v)) by auto. reflexivity.
Qed.

Lemma weight_dangling (r : ref) :
  h !! r = None -> weight ext none (length h) h (Some r) = 1%nat.
Proof. intros E. destruct (length h); cbn; [|rewrite E]; reflexivity. Qed.
End Weight.

Lemma weight_some_pos ext none n h r :
  (1 <= weight ext none n h (Some r))%nat.
Proof.
  destruct n; cbn; [lia|]. destruct (h !! r) as [v|]; [|lia].
  destruct (ext v); lia.
Qed.

Lemma work_pos (h : heap) (o : option ref) : (1 <= work h o)%nat.
Proof. destruct o; [apply weight_some_pos|]. unfold work. now destruct (length h). Qed.

Lemma some1_le_reach (h : heap) (o : option ref) : (some1 o <= reach h o)%nat.
Proof. destruct o; cbn [some1]; [apply weight_some_pos|lia]. Qed.

(** Following fewer edges reaches fewer nodes. *)
Lemma reach_le_paths (h : heap) (n : nat) :
  forall o, (weight fires 0 n h o <= weight (fun _ => true) 0 n h o)%nat.
Proof.
  induction n as [|n IH]; intros [r|]; cbn; try lia.
  destruct (h !! r) as [v|]; [|lia].
  pose proof (IH (_left_node v)). pose proof (IH (_right_node v)).
  destruct (fires v); lia.
Qed.

Lemma node_pushes_app (a b : list event) :
  node_pushes_of (a ++ b) = (node_pushes_of a + node_pushes_of b)%nat.
Proof. unfold node_pushes_of. now rewrite List.filter_app, length_app. Qed.

Lemma pushes_app (a b : list event) :
  pushes_of (a ++ b) = (pushes_of a + pushes_of b)%nat.
Proof. unfold pushes_of. now rewrite List.filter_app, length_app. Qed.

Lemma all_fires_app (a b : list event) :
  all_fires (a ++ b) = (all_fires a + all_fires b)%nat.
Proof. unfold all_fires. now rewrite List.filter_app, length_app. Qed.

Lemma node_pushes_step (l r : option ref) (c : ref) :
  node_pushes_of ([Push l; Push r] ++ [Fire c]) = (some1 l + some1 r)%nat.
Proof. now destruct l, r. Qed.

Lemma fires_with_grad (g : option Num) (v : PyVariable) :
  fires (with_grad g v) = fires v.
Proof. reflexivity. Qed.

Lemma fires_split (v : PyVariable) :
  fires v = true ->
  requires_grad v = true /\ exists f, _operation v = Some f.
Proof.
  unfold fires. destruct (requires_grad v), (_operation v); cbn;
    try discriminate; eauto.
Qed.

Lemma not_fires_split (v : PyVariable) :
  fires v = false ->
  requires_grad v = false \/ _operation v = None.
Proof.
  unfold fires. destruct (requires_grad v), (_operation v); cbn;
    try discriminate; auto.
Qed.

Ltac conjs := repeat match goal with |- _ /\ _ => split end.

Section Termination.
Variable B : Builtins.
Variable h0 : heap.
Hypothesis Hord : ordered h0.

(** With as much fuel as the stack entries weigh, the loop runs to the
    end (or to an exception), and what it pushes is bounded by what
    can be reached from the entries. *)
Lemma backward_loop_terminates (fuel : nat) :
  forall (stack : list (option ref)) (h : heap),
    same_shape h0 h ->
    (sum_list (work h0 <$> stack) <= fuel)%nat ->
    exists tr out h',
      backward_loop B fuel stack h = Some (tr, (out, h')) /\
      same_shape h0 h' /\
      (node_pushes_of tr + sum_list (some1 <$> stack)
       <= sum_list (reach h0 <$> stack))%nat /\
      pushes_of tr = (2 * all_fires tr)%nat /\
      (all_fires tr <= node_pushes_of tr + sum_list (some1 <$> stack))%nat.
Proof.
  induction fuel as [|fuel IH]; intros stack h Hs Hf.
  - destruct stack as [|o rest].
    + eexists _, _, _. split; [reflexivity|]. cbn. conjs; auto; lia.
    + cbn in Hf. pose proof (work_pos h0 o). lia.
  - destruct stack as [|[c|] rest].
    + eexists _, _, _. split; [reflexivity|]. cbn. conjs; auto; lia.
    + cbn [backward_loop]. cbn [fmap list_fmap sum_list sum_list_with id] in *.
      destruct (h !! c) as [v|] eqn:E.
      * destruct (same_shape_lookup _ _ _ _ Hs E) as (v0 & g & E0 & ->).
        unfold work, reach in *.
        rewrite (weight_unfold fires 1 h0 Hord c v0 E0) in Hf.
        rewrite (weight_unfold fires 0 h0 Hord c v0 E0).
        destruct (fires v0) eqn:F.
        -- destruct (fires_split _ F) as (R & f & O).
           cbn [requires_grad _operation with_grad _left_node _right_node].
           rewrite R, O.
           destruct (call B f c h) as [[[]|e|] h1] eqn:C.
           ++ destruct (IH (_right_node v0 :: _left_node v0 :: rest) h1)
                as (tr & out & h' & L & S' & N & P & A).
              { eapply same_shape_trans; [exact Hs|].
                apply evolves_same_shape. eapply call_evolves; eauto. }
              { cbn [fmap list_fmap sum_list sum_list_with id].
                unfold work. lia. }
              rewrite L. cbn [emit].
              eexists _, _, _. split; [reflexivity|].
              split; [exact S'|].
              cbn [fmap list_fmap sum_list sum_list_with id] in N, A.
              rewrite node_pushes_app, pushes_app, all_fires_app.
              rewrite node_pushes_step.
              unfold reach in N. cbn [some1].
              change (pushes_of ([Push (_left_node v0);
                                  Push (_right_node v0)] ++ [Fire c]))
                with 2%nat.
              change (all_fires ([Push (_left_node v0);
                                  Push (_right_node v0)] ++ [Fire c]))
                with 1%nat.
              conjs; lia.
           ++ eexists _, _, _. split; [reflexivity|].
              split.
              { eapply same_shape_trans; [exact Hs|].
                apply evolves_same_shape. eapply call_evolves; eauto. }
              rewrite node_pushes_step. cbn [some1].
              pose proof (some1_le_reach h0 (_left_node v0)).
              pose proof (some1_le_reach h0 (_right_node v0)).
              assert (sum_list (some1 <$> rest)
                      <= sum_list (reach h0 <$> rest))%nat.
              { clear. induction rest as [|o rest IHr]; cbn; [lia|].
                pose proof (some1_le_reach h0 o). lia. }
              change (pushes_of ([Push (_left_node v0);
                                  Push (_right_node v0)] ++ [Fire c]))
                with 2%nat.
              change (all_fires ([Push (_left_node v0);
                                  Push (_right_node v0)] ++ [Fire c]))
                with 1%nat.
              unfold reach in *. conjs; lia.
           ++ eexists _, _, _. split; [reflexivity|].
              split.
              { eapply same_shape_trans; [exact Hs|].
                apply evolves_same_shape. eapply call_evolves; eauto. }
              rewrite node_pushes_step. cbn [some1].
              pose proof (some1_le_reach h0 (_left_node v0)).
              pose proof (some1_le_reach h0 (_right_node v0)).
              assert (sum_list (some1 <$> rest)
                      <= sum_list (reach h0 <$> rest))%nat.
              { clear. induction rest as [|o rest IHr]; cbn; [lia|].
                pose proof (some1_le_reach h0 o). lia. }
              change (pushes_of ([Push (_left_node v0);
                                  Push (_right_node v0)] ++ [Fire c]))
                with 2%nat.
              change (all_fires ([Push (_left_node v0);
                                  Push (_right_node v0)] ++ [Fire c]))
                with 1%nat.
              unfold reach in *. conjs; lia.
        -- destruct (IH rest h Hs) as (tr & out & h' & L & S' & N & P & A).
           { unfold work. lia. }
           assert (backward_loop B fuel rest h
                   = match requires_grad (with_grad g v0),
                           _operation (with_grad g v0) with
                     | true, Some f =>
                         match call B f c h with
                         | (Ok _, h1) =>
                             emit ([Push (_left_node (with_grad g v0));
                                    Push (_right_node (with_grad g v0))]
                                   ++ [Fire c])
                               (backward_loop B fuel
                                  (_right_node (with_grad g v0)
                                   :: _left_node (with_grad g v0) :: rest) h1)
                         | (Raise e, h1) =>
                             Some ([Push (_left_node (with_grad g v0));
                                    Push (_right_node (with_grad g v0))]
                                   ++ [Fire c], (Raise e, h1))
                         | (Stuck, h1) =>
                             Some ([Push (_left_node (with_grad g v0));
                                    Push (_right_node (with_grad g v0))]
                                   ++ [Fire c], (Stuck, h1))
                         end
                     | _, _ => backward_loop B fuel rest h
                     end) as <-.
           { cbn [requires_grad _operation with_grad].
             destruct (not_fires_split _ F) as [-> | ->];
               [reflexivity|now destruct (requires_grad v0)]. }
           rewrite L. eexists _, _, _. split; [reflexivity|].
           split; [exact S'|]. unfold reach in *. cbn [some1].
           conjs; lia.
      * eexists _, _, _. split; [reflexivity|]. split; [exact Hs|].
        assert (sum_list (some1 <$> rest)
                <= sum_list (reach h0 <$> rest))%nat.
        { clear. induction rest as [|o rest IHr]; cbn; [lia|].
          pose proof (some1_le_reach h0 o). lia. }
        pose proof (weight_some_pos fires 0 (length h0) h0 c).
        unfold reach in *. cbn. conjs; lia.
    + cbn [backward_loop]. cbn [fmap list_fmap sum_list sum_list_with id] in *.
      destruct (IH rest h Hs) as (tr & out & h' & L & S' & N & P & A).
      { pose proof (work_pos h0 None). lia. }
      rewrite L. eexists _, _, _. split; [reflexivity|].
      split; [exact S'|]. cbn [some1]. conjs; lia.
Qed.
End Termination.

(** [x = Variable(0.0); g = x.sin()], as the constructor leaves it when
    [math.sin] returns [v]. *)
Definition sin_graph (v : Num) : heap :=
  [leaf (Float 0%float) true;
   mkVariable v true (Some (Int 0)) (Some Fn_sin_backward) (Some 0%nat) None].

Lemma sin_builds_sin_graph (B : Builtins) (v : Num) :
  py_sin B (Float 0%float) = Ok v ->
  sin B 0%nat [leaf (Float 0%float) true] = (Ok 1%nat, sin_graph v).
Proof.
  intros E. unfold sin, _unary_general_calc, bind, get, lift. cbn.
  rewrite E. now destruct v.
Qed.

Lemma sin_graph_ordered (v : Num) : ordered (sin_graph v).
Proof.
  intros [|[|i]] w c E [H|H]; cbn in E; try discriminate;
    injection E as <-; cbn in H; try discriminate.
  injection H as <-. lia.
Qed.

(** C10 as stated fails on a unary node: [backward()] on [g = x.sin()]
    pushes [g], then [x] and the absent right operand of [g], three
    pushes, while only two paths leave [g] (the empty one and the edge
    to [x]); this holds whatever the [math] functions return, in every
    run that finishes. *)
Lemma C10_pushes_exceed_paths :
  ~ exists (B : Builtins) (fuel : nat) tr out h',
      backward B fuel 1%nat (sin_graph (Float 0%float)) = Some (tr, (out, h')) /\
      (pushes_of tr <= paths (sin_graph (Float 0%float)) 1%nat)%nat.
Proof.
  intros (B & fuel & tr & out & h' & E & Hb).
  change (paths (sin_graph (Float 0%float)) 1%nat) with 2%nat in Hb.
  unfold backward in E.
  change (set_grad 1%nat (Some (Int 1)) (sin_graph (Float 0%float)))
    with (Ok tt,
          [leaf (Float 0%float) true;
           mkVariable (Float 0%float) true (Some (Int 1))
             (Some Fn_sin_backward) (Some 0%nat) None]) in E.
  cbv iota beta in E.
  destruct fuel as [|fuel]; [discriminate|].
  set (h1 := [_; _]) in E.
  change (backward_loop B (S fuel) [Some 1%nat] h1)
    with (match call B Fn_sin_backward 1%nat h1 with
          | (Ok _, h') =>
              emit ([Push (Some 0%nat); Push None] ++ [Fire 1%nat])
                   (backward_loop B fuel [None; Some 0%nat] h')
          | (Raise e, h') =>
              Some ([Push (Some 0%nat); Push None] ++ [Fire 1%nat],
                    (Raise e, h'))
          | (Stuck, h') =>
              Some ([Push (Some 0%nat); Push None] ++ [Fire 1%nat],
                    (Stuck, h'))
          end) in E.
  destruct (call B Fn_sin_backward 1%nat h1) as [[[]|e|] h2].
  - destruct (backward_loop B fuel _ h2) as [[tr' [out' h3]]|];
      cbn [emit app] in E; [|discriminate].
    injection E as <- _ _. cbn in Hb. lia.
  - cbn [emit app] in E. injection E as <- _ _. cbn in Hb. lia.
  - cbn [emit app] in E. injection E as <- _ _. cbn in Hb. lia.
Qed.

(** C10: on a heap in allocation order, [backward()] run with at least
    [work h (Some self)] units of fuel finishes (normally or with an
    exception).  Every operation it calls belongs to a node that requires
    a gradient and carries an operation; it appends two entries per call
    besides the root, so the number of entries is at most one plus twice
    the number of calls; the number of calls is at most the number of
    nodes pushed; and the number of nodes pushed is at most the number
    of paths that leave the root. *)
Theorem C10_backward_terminates (B : Builtins) (h : heap) (self : ref)
    (fuel : nat) :
  ordered h ->
  (work h (Some self) <= fuel)%nat ->
  exists tr out h',
    backward B fuel self h = Some (tr, (out, h')) /\
    (node_pushes_of tr <= paths h self)%nat /\
    (all_fires tr <= node_pushes_of tr)%nat /\
    (pushes_of tr <= 1 + 2 * all_fires tr)%nat /\
    (pushes_of tr <= 1 + 2 * paths h self)%nat.
Proof.
  intros Hord Hf. unfold backward, set_grad.
  destruct (h !! self) as [v|] eqn:E.
  - destruct (backward_loop_terminates B h Hord fuel [Some self]
                (<[self := with_grad (Some (Int 1)) v]> h))
      as (tr & out & h' & L & _ & N & P & A).
    { now apply same_shape_set_grad. }
    { cbn. lia. }
    rewrite L. cbn [emit]. eexists _, _, _. split; [reflexivity|].
    cbn [fmap list_fmap sum_list sum_list_with id some1] in N, A.
    rewrite node_pushes_app, pushes_app, all_fires_app.
    change (node_pushes_of [Push (Some self)]) with 1%nat.
    change (pushes_of [Push (Some self)]) with 1%nat.
    change (all_fires [Push (Some self)]) with 0%nat.
    pose proof (reach_le_paths h (length h) (Some self)) as Q.
    unfold reach in N. unfold paths. conjs; lia.
  - eexists _, _, _. split; [reflexivity|]. cbn. conjs; lia.
Qed.

Lemma C10_backward_terminates_witness :
  exists tr out h',
    backward {| float_pow := fun _ _ => Stuck; math_log := fun _ => Stuck;
                math_sin := fun _ => Ok 0%float;
                math_cos := fun _ => Ok 1%float |}
             3 1%nat (sin_graph (Float 0%float)) = Some (tr, (out, h')) /\
    (node_pushes_of tr <= paths (sin_graph (Float 0%float)) 1)%nat /\
    (all_fires tr <= node_pushes_of tr)%nat /\
    (pushes_of tr <= 1 + 2 * all_fires tr)%nat /\
    (pushes_of tr <= 1 + 2 * paths (sin_graph (Float 0%float)) 1)%nat.
Proof.
  apply (C10_backward_terminates _ (sin_graph (Float 0%float)) 1%nat 3).
  - apply sin_graph_ordered.
  - vm_compute. lia.
Defined.

(** ** Accumulation *)

(** [target.grad += d * self.grad] adds to the gradient that is there. *)
Lemma accumulate_adds (target self : ref) (d : Num) (h : heap)
    (t s : PyVariable) (gt gs : Num) :
  h !! target = Some t -> h !! self = Some s ->
  grad t = Some gt -> grad s = Some gs ->
  accumulate target d self h
  = match rbind (py_mul d gs) (fun p => py_add gt p) with
    | Ok g => (Ok tt, <[target := with_grad (Some g) t]> h)
    | Raise e => (Raise e, h)
    | Stuck => (Stuck, h)
    end.
Proof.
  intros Et Es Gt Gs. unfold accumulate, bind, get, lift.
  rewrite Et, Es, Gt, Gs. cbn [mul_grad add_grad].
  destruct (py_mul d gs) as [p| |]; cbn [rbind]; try reflexivity.
  destruct (py_add gt p) as [g| |]; try reflexivity.
  now rewrite (set_grad_lookup _ _ _ _ Et).
Qed.

(** The builtins [B], answering as stated at four arguments. *)
Definition patch (B : Builtins) (p1 l2 l3 : float) : Builtins :=
  {| float_pow := fun a b =>
       if PrimFloat.Leibniz.eqb a 3%float && PrimFloat.Leibniz.eqb b (-1)%float
       then Ok (IsFloat p1)
       else if PrimFloat.Leibniz.eqb a 3%float
               && PrimFloat.Leibniz.eqb b (-2)%float
       then Ok (IsFloat (1 / 9)%float)
       else float_pow B a b;
     math_log := fun n =>
       match n with
       | Int 3 => Ok l3
       | Int 2 => Ok l2
       | _ => math_log B n
       end;
     math_sin := math_sin B;
     math_cos := math_cos B |}.

Lemma patch_same (B : Builtins) (p1 l2 l3 : float) :
  float_pow B 3%float (-1)%float = Ok (IsFloat p1) ->
  float_pow B 3%float (-2)%float = Ok (IsFloat (1 / 9)%float) ->
  math_log B (Int 3) = Ok l3 ->
  math_log B (Int 2) = Ok l2 ->
  patch B p1 l2 l3 = B.
Proof.
  intros H1 H2 H3 H4. destruct B as [fp lg sn cs]. unfold patch.
  cbn [float_pow math_log math_sin math_cos] in *. f_equal.
  - extensionality a. extensionality b.
    destruct (PrimFloat.Leibniz.eqb a 3%float) eqn:Ea;
      [apply FloatAxioms.Leibniz.eqb_spec in Ea; subst a|reflexivity].
    destruct (PrimFloat.Leibniz.eqb b (-1)%float) eqn:Eb;
      [apply FloatAxioms.Leibniz.eqb_spec in Eb; subst b; now rewrite H1|].
    destruct (PrimFloat.Leibniz.eqb b (-2)%float) eqn:Ec;
      [apply FloatAxioms.Leibniz.eqb_spec in Ec; subst b; now rewrite H2|].
    reflexivity.
  - extensionality n. destruct n as [[|[[|[]|]|[|[]|]|]|]|f]; auto.
Qed.

(** The number [2 + 1/9] as Python computes it. *)
Definition two_plus_ninth : result Num :=
  rbind (py_truediv (Int 1) (Int 9)) (fun q => py_add (Int 2) q).

(** C4: accumulation adds [derivative * self.grad] to the gradient the
    operand already holds.  For [x = 2], [y = 3] and
    [f = x*y + x**2 - 1/y], on an interpreter where [3 ** -1] and
    [3 ** -2] are floats, the latter the float nearest to 1/9, and
    [log(2)] and [log(3)] are defined, [f.backward()] returns normally
    and leaves [x.grad == 7] (3 from [x*y] plus 4 from [x**2]) and
    [y.grad == 2 + 1/9]. *)
Theorem C4_accumulation_is_additive (B : Builtins) (p1 l2 l3 : float) :
  float_pow B 3%float (-1)%float = Ok (IsFloat p1) ->
  float_pow B 3%float (-2)%float = Ok (IsFloat (1 / 9)%float) ->
  math_log B (Int 3) = Ok l3 ->
  math_log B (Int 2) = Ok l2 ->
  (forall target self d h t s gt gs p g,
     h !! target = Some t -> h !! self = Some s ->
     grad t = Some gt -> grad s = Some gs ->
     py_mul d gs = Ok p -> py_add gt p = Ok g ->
     accumulate target d self h
     = (Ok tt, <[target := with_grad (Some g) t]> h)) /\
  (exists h tr h' v,
     example1 B [] = (Ok 10%nat, h) /\
     backward B 19 10%nat h = Some (tr, (Ok tt, h')) /\
     grad_at h' 0%nat = Some (Some (Int 7)) /\
     two_plus_ninth = Ok v /\
     grad_at h' 1%nat = Some (Some v)).
Proof.
  intros H1 H2 H3 H4. split.
  - intros target self d h t s gt gs p g Et Es Gt Gs Ep Eg.
    rewrite (accumulate_adds _ _ _ _ _ _ _ _ Et Es Gt Gs), Ep. cbn [rbind].
    now rewrite Eg.
  - rewrite <- (patch_same B p1 l2 l3 H1 H2 H3 H4).
    eexists _, _, _, _.
    split; [vm_compute; reflexivity|].
    split; [vm_compute; reflexivity|].
    split; [reflexivity|].
    split; vm_compute; reflexivity.
Qed.

Lemma C4_accumulation_is_additive_witness :
  exists h tr h' v,
    example1 (patch {| float_pow := fun _ _ => Stuck; math_log := fun _ => Stuck;
                       math_sin := fun _ => Stuck; math_cos := fun _ => Stuck |}
                    (1 / 3)%float 0x1.62e42fefa39efp-1%float
                    0x1.193ea7aad030bp+0%float) [] = (Ok 10%nat, h) /\
    backward (patch {| float_pow := fun _ _ => Stuck; math_log := fun _ => Stuck;
                       math_sin := fun _ => Stuck; math_cos := fun _ => Stuck |}
                    (1 / 3)%float 0x1.62e42fefa39efp-1%float
                    0x1.193ea7aad030bp+0%float) 19 10%nat h
    = Some (tr, (Ok tt, h')) /\
    grad_at h' 0%nat = Some (Some (Int 7)) /\
    two_plus_ninth = Ok v /\
    grad_at h' 1%nat = Some (Some v).
Proof.
  apply (C4_accumulation_is_additive _ (1 / 3)%float
           0x1.62e42fefa39efp-1%float 0x1.193ea7aad030bp+0%float);
    reflexivity.
Defined.

(** ** IEEE facts the reversed operators rest on *)

Lemma SFadd_comm (x y : spec_float) :
  SFadd prec emax x y = SFadd prec emax y x.
Proof.
  destruct x as [sx|sx| |sx mx ex], y as [sy|sy| |sy my ey];
    try reflexivity; try (now destruct sx, sy).
  cbn [SFadd]. now rewrite Z.min_comm, Z.add_comm.
Qed.

Lemma SFmul_comm (x y : spec_float) :
  SFmul prec emax x y = SFmul prec emax y x.
Proof.
  destruct x as [sx|sx| |sx mx ex], y as [sy|sy| |sy my ey];
    try reflexivity; cbn [SFmul]; rewrite ?(xorb_comm sx sy); try reflexivity.
  now rewrite Pos.mul_comm, Z.add_comm.
Qed.

Lemma float_add_comm (x y : float) : (x + y = y + x)%float.
Proof.
  apply Prim2SF_inj. rewrite !add_spec. apply SFadd_comm.
Qed.

Lemma float_mul_comm (x y : float) : (x * y = y * x)%float.
Proof.
  apply Prim2SF_inj. rewrite !mul_spec. apply SFmul_comm.
Qed.

(** [(-x) + y = y - x] *)
Lemma SFadd_opp_l (x y : spec_float) :
  SFadd prec emax (SFopp x) y = SFsub prec emax y x.
Proof.
  destruct x as [sx|sx| |sx mx ex], y as [sy|sy| |sy my ey];
    try reflexivity; try (now destruct sx, sy); try (now destruct sx).
  cbn [SFadd SFsub SFopp]. rewrite Z.min_comm.
  f_equal. destruct sx, sy; cbn [cond_Zopp negb]; lia.
Qed.

Lemma float_add_opp_l (x y : float) : (- x + y = y - x)%float.
Proof.
  apply Prim2SF_inj. rewrite add_spec, sub_spec, opp_spec.
  apply SFadd_opp_l.
Qed.
Lemma minus_one_spec : Prim2SF (-1)%float = S754_finite true 4503599627370496 (-52).
Proof. reflexivity. Qed.

Lemma float_of_Z_m1 : float_of_Z (-1) = (-1)%float.
Proof. reflexivity. Qed.

Lemma digits_shifted (mx : positive) :
  Zdigits2 (Z.pos (Pos.iter xO mx 52)) = Z.pos (digits2_pos mx) + 52.
Proof. cbn. lia. Qed.

Lemma shr_shifted (mx : positive) :
  SpecFloat.iter_pos shr_1 52%positive (Build_shr_record (Z.pos (Pos.iter xO mx 52)) false false)
  = Build_shr_record (Z.pos mx) false false.
Proof. reflexivity. Qed.

(** A product by [2^52 * 2^-52] rounds back to the factor. *)
Lemma round_shifted (s : bool) (mx : positive) (ex : Z) :
  bounded prec emax mx ex = true ->
  binary_round_aux prec emax s (Zpos (mx * 4503599627370496)) (ex + -52) loc_Exact
  = S754_finite s mx ex.
Proof.
  unfold bounded, canonical_mantissa. intros Hb.
  apply andb_true_iff in Hb. destruct Hb as [Hc He].
  apply Z.eqb_eq in Hc.
  rewrite Pos.mul_comm.
  change (4503599627370496 * mx)%positive
    with (Pos.iter xO mx 52%positive).
  unfold binary_round_aux, shr_fexp.
  rewrite digits_shifted.
  replace (Z.pos (digits2_pos mx) + 52 + (ex + -52))
    with (Z.pos (digits2_pos mx) + ex) by lia.
  rewrite Hc.
  replace (ex - (ex + -52)) with 52 by lia.
  cbn [shr shr_record_of_loc]. rewrite shr_shifted.
  cbn [shr_m loc_of_shr_record round_nearest_even shr_record_of_loc Zdigits2].
  replace (ex + -52 + 52) with ex by lia.
  rewrite Hc, Z.sub_diag. cbn [shr shr_m]. now rewrite He.
Qed.

Lemma SFmul_minus_one (x : spec_float) :
  valid_binary x = true ->
  SFmul prec emax x (S754_finite true 4503599627370496 (-52)) = SFopp x.
Proof.
  destruct x as [sx|sx| |sx mx ex]; intros Hv; cbn [SFmul SFopp];
    rewrite ?xorb_true_r; try reflexivity.
  now apply round_shifted.
Qed.

(** [x * -1.0 = -x] *)
Lemma float_mul_minus_one (x : float) : (x * (-1) = - x)%float.
Proof.
  apply Prim2SF_inj. rewrite mul_spec, opp_spec, minus_one_spec.
  apply SFmul_minus_one, Prim2SF_valid.
Qed.

Lemma float_opp_involutive (x : float) : (- - x = x)%float.
Proof.
  apply Prim2SF_inj. rewrite !opp_spec.
  destruct (Prim2SF x); cbn; now rewrite ?negb_involutive.
Qed.

Lemma SF2Prim_opp (x : spec_float) :
  SF2Prim (SFopp x) = (- SF2Prim x)%float.
Proof.
  destruct x as [[]|[]| |[] m e]; cbn [SFopp SF2Prim negb]; try reflexivity.
  now rewrite float_opp_involutive.
Qed.

Lemma binary_round_opp (m : positive) (e : Z) :
  binary_round prec emax true m e = SFopp (binary_round prec emax false m e).
Proof.
  unfold binary_round. destruct (shl_align _ _ _) as [mz ez].
  unfold binary_round_aux.
  destruct (shr_fexp _ _ _ _ _) as [mrs' e'].
  destruct (shr_fexp _ _ _ _ _) as [mrs'' e''].
  destruct (shr_m mrs''); try reflexivity.
  now destruct (e'' <=? emax - prec).
Qed.

(** [float(-a) = -float(a)] for [a] other than 0. *)
Lemma float_of_Z_opp (a : Z) :
  a <> 0 -> float_of_Z (- a) = (- float_of_Z a)%float.
Proof.
  unfold float_of_Z. destruct a as [|p|p]; intros Ha; [easy| |].
  - change (- Z.pos p) with (Z.neg p). cbn [binary_normalize].
    now rewrite binary_round_opp, SF2Prim_opp.
  - change (- Z.neg p) with (Z.pos p). cbn [binary_normalize].
    now rewrite binary_round_opp, SF2Prim_opp, float_opp_involutive.
Qed.

Lemma is_infinity_opp (x : float) :
  PrimFloat.is_infinity (- x) = PrimFloat.is_infinity x.
Proof.
  unfold PrimFloat.is_infinity.
  assert (abs (- x) = abs x) as ->; [|reflexivity].
  apply Prim2SF_inj. rewrite !abs_spec, opp_spec.
  now destruct (Prim2SF x).
Qed.

Lemma to_float_opp (a : Z) :
  a <> 0 ->
  to_float (- a) = rbind (to_float a) (fun f => Ok (- f)%float).
Proof.
  intros Ha. unfold to_float. rewrite (float_of_Z_opp _ Ha), is_infinity_opp.
  now destruct (PrimFloat.is_infinity (float_of_Z a)).
Qed.

(** [0.0 + g] and [g - 0.0] are the same float, or zeros of opposite
    sign. *)
Lemma float_zero_add_sub (g : float) :
  (0 + g = g - 0)%float \/
  ((0 + g)%float = PrimFloat.zero /\ (g - 0)%float = PrimFloat.neg_zero).
Proof.
  destruct (Prim2SF g) as [[]|s| |s m e] eqn:G.
  - right. split; apply Prim2SF_inj; rewrite ?add_spec, ?sub_spec, G; reflexivity.
  - left. apply Prim2SF_inj. rewrite add_spec, sub_spec, G. reflexivity.
  - left. apply Prim2SF_inj. rewrite add_spec, sub_spec, G. now destruct s.
  - left. apply Prim2SF_inj. rewrite add_spec, sub_spec, G. reflexivity.
  - left. apply Prim2SF_inj. rewrite add_spec, sub_spec, G. reflexivity.
Qed.

(** ** Reversed operands *)

(** Two numbers are the same value when they are identical or are floats
    that compare equal with [==] (zeros of either sign). *)
Definition same_value (a b : Num) : Prop :=
  a = b \/
  exists f g, a = Float f /\ b = Float g /\ PrimFloat.eqb f g = true.

Definition value_at (h : heap) (r : ref) : option Num :=
  value <$> h !! r.

Lemma check_of_Num (v : Num) : _check_value (of_Num v) = Ok v.
Proof. now destruct v. Qed.

Lemma arith_comm (fz : Z -> Z -> Z) (ff : float -> float -> float) :
  (forall x y, fz x y = fz y x) -> (forall x y, ff x y = ff y x) ->
  forall a b, arith fz ff a b = arith fz ff b a.
Proof.
  intros Hz Hf [x|x] [y|y]; unfold arith; cbn [as_float rbind].
  - now rewrite Hz.
  - destruct (to_float x) as [fx| |]; cbn [rbind]; [rewrite Hf|..]; reflexivity.
  - destruct (to_float y) as [fy| |]; cbn [rbind]; [rewrite Hf|..]; reflexivity.
  - now rewrite Hf.
Qed.

Lemma py_add_comm (a b : Num) : py_add a b = py_add b a.
Proof. apply arith_comm; [apply Z.add_comm|apply float_add_comm]. Qed.

Lemma py_mul_comm (a b : Num) : py_mul a b = py_mul b a.
Proof. apply arith_comm; [apply Z.mul_comm|apply float_mul_comm]. Qed.

(** [-x + c] against [c - x]. *)
Lemma to_float_zero : to_float 0 = Ok 0%float.
Proof. reflexivity. Qed.

Lemma to_float_minus_one : to_float (-1) = Ok (-1)%float.
Proof. reflexivity. Qed.

Lemma neg_then_add (xv c v : Num) :
  py_sub c xv = Ok v ->
  exists m v',
    py_mul xv (Int (-1)) = Ok m /\ py_add m c = Ok v' /\ same_value v' v.
Proof.
  unfold py_sub, arith.
  destruct xv as [a|f], c as [b|g]; cbn [as_float rbind].
  - intros [= <-]. exists (Int (a * -1)), (Int (a * -1 + b)).
    split; [reflexivity|]. split; [reflexivity|].
    left. f_equal. lia.
  - destruct (to_float a) as [fa| |] eqn:Ea; cbn [rbind]; try discriminate.
    intros [= <-]. exists (Int (a * -1)).
    unfold py_mul, py_add, arith; cbn [as_float rbind].
    destruct (Z.eq_dec a 0) as [->|Na].
    + rewrite to_float_zero in Ea. injection Ea as <-.
      change (0 * -1) with 0. rewrite to_float_zero. cbn [rbind].
      eexists. split; [reflexivity|]. split; [reflexivity|].
      destruct (float_zero_add_sub g) as [->|[-> ->]]; [now left|].
      right. eexists _, _. split; [reflexivity|]. split; reflexivity.
    + replace (a * -1) with (- a) by lia.
      rewrite (to_float_opp _ Na), Ea. cbn [rbind].
      eexists. split; [reflexivity|]. split; [reflexivity|].
      left. now rewrite float_add_opp_l.
  - destruct (to_float b) as [fb| |] eqn:Eb; cbn [rbind]; try discriminate.
    intros [= <-]. exists (Float (f * -1)%float).
    unfold py_mul, py_add, arith; cbn [as_float rbind].
    rewrite to_float_minus_one, Eb. cbn [rbind].
    eexists. split; [reflexivity|].
    split; [reflexivity|]. left.
    now rewrite float_mul_minus_one, float_add_opp_l.
  - intros [= <-]. exists (Float (f * -1)%float).
    unfold py_mul, py_add, arith; cbn [as_float rbind].
    rewrite to_float_minus_one. cbn [rbind].
    eexists. split; [reflexivity|].
    split; [reflexivity|]. left.
    now rewrite float_mul_minus_one, float_add_opp_l.
Qed.

(** A node with a number on its right: what is built when the native
    operation returns a number. *)
Lemma binary_calc_raw_ok (self : ref) (o : pyobj) (n : Num) op f (h : heap)
    (s : PyVariable) (v : pyobj) (m : Num) :
  h !! self = Some s -> _check_value o = Ok n ->
  op (value s) n = Ok v -> _check_value v = Ok m ->
  _binary_general_calc self (ORaw o) op f h
  = (Ok (S (length h)),
     h ++ [leaf n true; result_node m f self (length h) true]).
Proof.
  intros Es En Ev Em.
  rewrite (binary_calc_raw _ _ _ _ _ _ _ Es En), Ev.
  rewrite (Variable_init_number _ _ _ _ _ _ _ Em).
  rewrite length_app, <- app_assoc. cbn [length app].
  do 2 f_equal. lia.
Qed.

Lemma lookup_two_new {A} (l : list A) (a b : A) :
  (l ++ [a; b]) !! S (length l) = Some b.
Proof.
  change [a; b] with ([a] ++ [b]). rewrite app_assoc.
  replace (S (length l)) with (length (l ++ [a])) by (rewrite length_app; cbn; lia).
  apply lookup_snoc_new.
Qed.

Lemma lookup_two_old {A} (l : list A) (a b : A) (i : nat) (y : A) :
  l !! i = Some y -> (l ++ [a; b]) !! i = Some y.
Proof. intros E. apply lookup_app_l_Some. exact E. Qed.

Section Reversed.
Variable B : Builtins.
Variables (h : heap) (x : ref) (s : PyVariable) (c : pyobj) (n : Num).
Hypothesis Hx : h !! x = Some s.
Hypothesis Hc : _check_value c = Ok n.

Lemma radd_value (v : Num) :
  py_add n (value s) = Ok v ->
  exists w h', __radd__ x c h = (Ok w, h') /\ value_at h' w = Some v.
Proof.
  intros E. rewrite py_add_comm in E. unfold __radd__, __add__.
  erewrite binary_calc_raw_ok;
    [|exact Hx|exact Hc|rewrite E; reflexivity|apply check_of_Num].
  eexists _, _. split; [reflexivity|].
  unfold value_at. now rewrite lookup_two_new.
Qed.

Lemma rmul_value (v : Num) :
  py_mul n (value s) = Ok v ->
  exists w h', __rmul__ x c h = (Ok w, h') /\ value_at h' w = Some v.
Proof.
  intros E. rewrite py_mul_comm in E. unfold __rmul__, __mul__.
  erewrite binary_calc_raw_ok;
    [|exact Hx|exact Hc|rewrite E; reflexivity|apply check_of_Num].
  eexists _, _. split; [reflexivity|].
  unfold value_at. now rewrite lookup_two_new.
Qed.

Lemma rsub_value (v : Num) :
  py_sub n (value s) = Ok v ->
  exists w h' v',
    __rsub__ x c h = (Ok w, h') /\ value_at h' w = Some v' /\
    same_value v' v.
Proof.
  intros E. destruct (neg_then_add _ _ _ E) as (m & v' & Em & Ev & Hs).
  unfold __rsub__, __neg__, __mul__, __add__, bind.
  erewrite binary_calc_raw_ok;
    [|exact Hx|reflexivity|cbn; rewrite Em; reflexivity|apply check_of_Num].
  erewrite binary_calc_raw_ok;
    [|apply lookup_two_new|exact Hc|cbn; rewrite Ev; reflexivity
     |apply check_of_Num].
  eexists _, _, v'. split; [reflexivity|]. split; [|exact Hs].
  unfold value_at. now rewrite lookup_two_new.
Qed.

Lemma rpow_value (o : pyobj) (v : Num) :
  py_pow B n (value s) = Ok o -> _check_value o = Ok v ->
  exists w h', __rpow__ B x c h = (Ok w, h') /\ value_at h' w = Some v.
Proof.
  intros E Ev. rewrite (rpow_promotes_without_grad _ _ _ _ _ Hc).
  unfold __pow__.
  rewrite (binary_calc_var _ _ _ _ _ _ _ (lookup_snoc_new _ _)
             (lookup_snoc_old _ _ _ _ Hx)).
  cbn [value leaf]. rewrite E.
  rewrite (Variable_init_number _ _ _ _ _ _ _ Ev).
  eexists _, _. split; [reflexivity|].
  unfold value_at. now rewrite lookup_snoc_new.
Qed.

Lemma rtruediv_value (o : pyobj) (p v : Num) :
  py_pow B (value s) (Int (-1)) = Ok o -> _check_value o = Ok p ->
  py_mul p n = Ok v ->
  exists w h', __rtruediv__ B x c h = (Ok w, h') /\ value_at h' w = Some v.
Proof.
  intros E Ep Ev. unfold __rtruediv__, __pow__, __mul__, bind.
  erewrite binary_calc_raw_ok;
    [|exact Hx|reflexivity|cbn; exact E|exact Ep].
  erewrite binary_calc_raw_ok;
    [|apply lookup_two_new|exact Hc|cbn; rewrite Ev; reflexivity
     |apply check_of_Num].
  eexists _, _. split; [reflexivity|].
  unfold value_at. now rewrite lookup_two_new.
Qed.
End Reversed.

(** What a node returned by [c / x] stands on. *)
Lemma rtruediv_inv (B : Builtins) (h : heap) (x : ref) (s : PyVariable)
    (c : pyobj) (n : Num) (w : ref) (h' : heap) :
  h !! x = Some s -> _check_value c = Ok n ->
  __rtruediv__ B x c h = (Ok w, h') ->
  exists o p v,
    py_pow B (value s) (Int (-1)) = Ok o /\ _check_value o = Ok p /\
    py_mul p n = Ok v /\ value_at h' w = Some v.
Proof.
  intros Hx Hc. unfold __rtruediv__, __pow__, __mul__, bind.
  rewrite (binary_calc_raw x (PInt (-1)) (Int (-1)) _ _ _ _ Hx eq_refl).
  destruct (py_pow B (value s) (Int (-1))) as [o| |] eqn:Eo; try discriminate.
  unfold Variable_init at 1.
  destruct (_check_value o) as [p| |] eqn:Ep; try discriminate.
  erewrite (binary_calc_raw _ c n); [|apply lookup_snoc_new|exact Hc].
  cbn [value]. unfold num_result.
  destruct (py_mul p n) as [v| |] eqn:Ev; cbn [rbind]; try discriminate.
  rewrite (Variable_init_number _ _ _ _ _ _ _ (check_of_Num v)).
  intros [= <- <-]. exists o, p, v.
  split; [reflexivity|]. split; [exact Ep|]. split; [exact Ev|].
  unfold value_at. now rewrite lookup_snoc_new.
Qed.

Lemma py_pow_negative_exponent (B : Builtins) (a b : Z) (o : pyobj) (p : Num) :
  b < 0 -> py_pow B (Int a) (Int b) = Ok o -> _check_value o = Ok p ->
  exists r, p = Float r.
Proof.
  intros Hb. unfold py_pow, py_float_pow.
  destruct (0 <=? b) eqn:E; [apply Z.leb_le in E; lia|].
  destruct (to_float a) as [fa| |]; cbn [rbind]; try discriminate.
  destruct (to_float b) as [fb| |]; cbn [rbind]; try discriminate.
  destruct (float_pow B fa fb) as [[r|]| |]; cbn [rbind of_power];
    try discriminate; intros [= <-]; cbn [_check_value]; try discriminate.
  intros [= <-]. now exists r.
Qed.

Lemma to_float_huge : to_float (10 ^ 400) = Raise OverflowError.
Proof. vm_compute. reflexivity. Qed.

Lemma to_float_three : to_float 3 = Ok 3%float.
Proof. reflexivity. Qed.

Lemma Ok_inj {A} (a b : A) : Ok a = Ok b -> a = b.
Proof.
  intros E.
  exact (f_equal (fun r => match r with Ok x => x | _ => a end) E).
Qed.

Lemma Some_inj {A} (a b : A) : Some a = Some b -> a = b.
Proof.
  intros E.
  exact (f_equal (fun r => match r with Some x => x | None => a end) E).
Qed.

Lemma Float_inj (f g : float) : Float f = Float g -> f = g.
Proof.
  intros E.
  exact (f_equal (fun r => match r with Float x => x | Int _ => f end) E).
Qed.

(** C9 as stated fails for division, which is computed as
    [x ** -1 * c]: with [c = 10**400] and [x.value = 10**300] the native
    quotient is the float [1e100], while on no interpreter does
    [c / x] return a node (the product needs [float(c)], which
    overflows); and where [3 ** -1] is the float nearest to 1/3,
    [5 / Variable(3)] does not have the value of [5 / 3] (it is the
    float just below). *)
Lemma C9_reversed_division_differs :
  py_truediv (Int (10 ^ 400)) (Int (10 ^ 300))
  = Ok (Float 0x1.249ad2594c37dp+332%float) /\
  (~ exists B w h',
       __rtruediv__ B 0%nat (PInt (10 ^ 400)) [leaf (Int (10 ^ 300)) true]
       = (Ok w, h')) /\
  py_truediv (Int 5) (Int 3) = Ok (Float 0x1.aaaaaaaaaaaabp+0%float) /\
  (~ exists B w h',
       float_pow B 3%float (-1)%float = Ok (IsFloat (1 / 3)%float) /\
       __rtruediv__ B 0%nat (PInt 5) [leaf (Int 3) true] = (Ok w, h') /\
       value_at h' w = Some (Float 0x1.aaaaaaaaaaaabp+0%float)).
Proof.
  split; [vm_compute; reflexivity|].
  split; [|split; [vm_compute; reflexivity|]].
  - intros (B & w & h' & E).
    destruct (rtruediv_inv B [leaf (Int (10 ^ 300)) true] 0%nat
                (leaf (Int (10 ^ 300)) true) (PInt (10 ^ 400))
                (Int (10 ^ 400)) w h' eq_refl eq_refl E)
      as (o & p & v & Eo & Ep & Ev & _).
    cbn [value leaf] in Eo.
    destruct (py_pow_negative_exponent B (10 ^ 300) (-1) o p
                (eq_refl : (-1 ?= 0) = Lt) Eo Ep) as [r ->].
    unfold py_mul, arith in Ev. cbn [as_float rbind] in Ev.
    rewrite to_float_huge in Ev. discriminate.
  - intros (B & w & h' & Hp & E & Hv).
    destruct (rtruediv_inv B [leaf (Int 3) true] 0%nat (leaf (Int 3) true)
                (PInt 5) (Int 5) w h' eq_refl eq_refl E)
      as (o & p & v & Eo & Ep & Ev & Hw).
    cbn [value leaf] in Eo. unfold py_pow, py_float_pow in Eo.
    change (0 <=? -1) with false in Eo. cbv iota in Eo.
    rewrite to_float_three, to_float_minus_one in Eo. cbn [rbind] in Eo.
    rewrite Hp in Eo. cbn [rbind of_power] in Eo. injection Eo as <-.
    cbn [_check_value] in Ep. injection Ep as <-.
    vm_compute in Ev. apply Ok_inj in Ev. subst v.
    rewrite Hw in Hv. apply Some_inj, Float_inj in Hv.
    apply FloatAxioms.Leibniz.eqb_spec in Hv. vm_compute in Hv. discriminate.
Qed.

(** C9: for a node [x] and a number [c], [c + x], [c * x] and [c ** x]
    have the value the native operation gives on [c] and [x.value]
    whenever it gives a number; [c - x], computed as [-x + c], has the
    value of [c - x.value] (the same number, or a zero of the other
    sign); and [c / x], computed as [x ** -1 * c], has the value the
    native [x.value ** -1 * c] gives. *)
Theorem C9_reversed_operands (B : Builtins) (h : heap) (x : ref)
    (s : PyVariable) (c : pyobj) (n : Num) :
  h !! x = Some s ->
  _check_value c = Ok n ->
  (forall v, py_add n (value s) = Ok v ->
     exists w h', __radd__ x c h = (Ok w, h') /\ value_at h' w = Some v) /\
  (forall v, py_sub n (value s) = Ok v ->
     exists w h' v', __rsub__ x c h = (Ok w, h') /\
                     value_at h' w = Some v' /\ same_value v' v) /\
  (forall v, py_mul n (value s) = Ok v ->
     exists w h', __rmul__ x c h = (Ok w, h') /\ value_at h' w = Some v) /\
  (forall o v, py_pow B n (value s) = Ok o -> _check_value o = Ok v ->
     exists w h', __rpow__ B x c h = (Ok w, h') /\ value_at h' w = Some v) /\
  (forall o p v,
     py_pow B (value s) (Int (-1)) = Ok o -> _check_value o = Ok p ->
     py_mul p n = Ok v ->
     exists w h', __rtruediv__ B x c h = (Ok w, h') /\ value_at h' w = Some v).
Proof.
  intros Hx Hc.
  split; [intros v; now apply radd_value|].
  split; [intros v; now apply rsub_value|].
  split; [intros v; now apply rmul_value|].
  split; [intros o v; now apply rpow_value|].
  intros o p v. now apply rtruediv_value.
Qed.

Lemma C9_reversed_operands_witness :
  exists w h' v',
    __rsub__ 0%nat (PFloat 0.5%float) [leaf (Int 3) true] = (Ok w, h') /\
    value_at h' w = Some v' /\ same_value v' (Float (-2.5)%float).
Proof.
  destruct (C9_reversed_operands
              {| float_pow := fun _ _ => Stuck; math_log := fun _ => Stuck;
                 math_sin := fun _ => Stuck; math_cos := fun _ => Stuck |}
              [leaf (Int 3) true] 0%nat (leaf (Int 3) true)
              (PFloat 0.5%float) (Float 0.5%float) eq_refl eq_refl)
    as (_ & Hsub & _).
  apply (Hsub (Float (-2.5)%float)). vm_compute. reflexivity.
Defined.

(** * Further properties of the module *)

(** ** The operator surface *)

(** A call of the constructor or of one of the operators and methods
    that build a node. *)
Inductive op_call : Type :=
  | Call_Variable (value : pyobj) (rg : bool)
  | Call_add (self : ref) (other : operand)
  | Call_radd (self : ref) (other : pyobj)
  | Call_sub (self : ref) (other : operand)
  | Call_rsub (self : ref) (other : pyobj)
  | Call_mul (self : ref) (other : operand)
  | Call_rmul (self : ref) (other : pyobj)
  | Call_pow (self : ref) (other : operand)
  | Call_rpow (self : ref) (other : pyobj)
  | Call_truediv (self : ref) (other : operand)
  | Call_rtruediv (self : ref) (other : pyobj)
  | Call_neg (self : ref)
  | Call_sin (self : ref)
  | Call_cos (self : ref).

Definition perform (B : Builtins) (c : op_call) : M ref :=
  match c with
  | Call_Variable value rg => Variable_init value None None None rg
  | Call_add self other => __add__ self other
  | Call_radd self other => __radd__ self other
  | Call_sub self other => __sub__ self other
  | Call_rsub self other => __rsub__ self other
  | Call_mul self other => __mul__ self other
  | Call_rmul self other => __rmul__ self other
  | Call_pow self other => __pow__ B self other
  | Call_rpow self other => __rpow__ B self other
  | Call_truediv self other => __truediv__ self other
  | Call_rtruediv self other => __rtruediv__ B self other
  | Call_neg self => __neg__ self
  | Call_sin self => sin B self
  | Call_cos self => cos B self
  end.

Definition child (v : PyVariable) (c : ref) : Prop :=
  _left_node v = Some c \/ _right_node v = Some c.

(** [h'] is [h] followed by new nodes, each of which only refers to
    nodes before it. *)
Definition extends (h h' : heap) : Prop :=
  exists t, h' = h ++ t /\
    forall i v c, t !! i = Some v -> child v c -> (c < length h + i)%nat.

Lemma extends_refl (h : heap) : extends h h.
Proof.
  exists []. split; [now rewrite app_nil_r|]. intros i v c E. discriminate.
Qed.

Lemma extends_trans (h1 h2 h3 : heap) :
  extends h1 h2 -> extends h2 h3 -> extends h1 h3.
Proof.
  intros (t & -> & Ht) (u & -> & Hu). exists (t ++ u).
  split; [now rewrite app_assoc|].
  intros i v c E Hc. apply lookup_app_Some in E.
  destruct E as [E|[L E]].
  - eapply Ht; eauto.
  - specialize (Hu _ _ _ E Hc). rewrite length_app in Hu. lia.
Qed.

Lemma extends_snoc (h : heap) (v : PyVariable) :
  (forall c, child v c -> (c < length h)%nat) -> extends h (h ++ [v]).
Proof.
  intros Hv. exists [v]. split; [reflexivity|].
  intros [|i] w c E Hc; cbn in E; [|discriminate].
  assert (w = v) as -> by congruence. specialize (Hv c Hc). lia.
Qed.

Lemma extends_ordered (h h' : heap) :
  ordered h -> extends h h' -> ordered h'.
Proof.
  intros Ho (t & -> & Ht) i v c E Hc. apply lookup_app_Some in E.
  destruct E as [E|[L E]].
  - eapply Ho; eauto.
  - specialize (Ht _ _ _ E Hc). lia.
Qed.

Lemma extends_lookup (h h' : heap) (r : ref) (v : PyVariable) :
  extends h h' -> h !! r = Some v -> h' !! r = Some v.
Proof. intros (t & -> & _) E. now apply lookup_app_l_Some. Qed.

(** A method that only allocates. *)
Definition grows {A} (m : M A) : Prop := forall h, extends h (snd (m h)).

Lemma grows_ret {A} (a : A) : grows (ret a).
Proof. intros h. apply extends_refl. Qed.

Lemma grows_lift {A} (r : result A) : grows (lift r).
Proof. intros h. apply extends_refl. Qed.

Lemma grows_bind {A C} (m : M A) (k : A -> M C) :
  grows m -> (forall a, grows (k a)) -> grows (bind m k).
Proof.
  intros Hm Hk h. unfold bind. specialize (Hm h).
  destruct (m h) as [[a|e|] h1]; cbn [snd] in *; auto.
  eapply extends_trans; [exact Hm|apply Hk].
Qed.

Lemma grows_leaf (value : pyobj) (rg : bool) :
  grows (Variable_init value None None None rg).
Proof.
  intros h. unfold Variable_init.
  destruct (_check_value value); cbn [snd]; try apply extends_refl.
  apply extends_snoc. intros c [H|H]; discriminate.
Qed.

Lemma grows_binary (self : ref) (second : operand) op f :
  grows (_binary_general_calc self second op f).
Proof.
  intros h. unfold _binary_general_calc, bind, ret, get, lift.
  destruct second as [r|o].
  - destruct (h !! self) as [s|] eqn:Es; [|apply extends_refl].
    destruct (h !! r) as [t|] eqn:Et; [|apply extends_refl].
    destruct (op (value s) (value t)) as [v| |]; try apply extends_refl.
    unfold Variable_init. destruct (_check_value v); try apply extends_refl.
    cbn [snd]. apply extends_snoc. intros c [H|H]; injection H as <-;
      eapply lookup_lt_Some; eauto.
  - pose proof (grows_leaf o true h) as G.
    destruct (Variable_init o None None None true h) as [[w| |] h1] eqn:Ei;
      cbn [snd] in *; auto.
    assert (Hw : w = length h /\ (length h < length h1)%nat).
    { unfold Variable_init in Ei. destruct (_check_value o); try discriminate.
      injection Ei as <- <-. rewrite length_app. cbn. lia. }
    destruct Hw as [-> Hl].
    destruct (h1 !! self) as [s|] eqn:Es; [|exact G].
    destruct (h1 !! length h) as [t|] eqn:Et; [|exact G].
    destruct (op (value s) (value t)) as [v| |]; try exact G.
    unfold Variable_init. destruct (_check_value v); try exact G.
    cbn [snd]. eapply extends_trans; [exact G|].
    apply extends_snoc. intros c [H|H]; injection H as <-;
      [eapply lookup_lt_Some; eauto|exact Hl].
Qed.

Lemma grows_unary (self : ref) op f :
  grows (_unary_general_calc self op f).
Proof.
  intros h. unfold _unary_general_calc, bind, get, lift.
  destruct (h !! self) as [s|] eqn:Es; [|apply extends_refl].
  destruct (num_result (op (value s))) as [v| |]; try apply extends_refl.
  unfold Variable_init. destruct (_check_value v); try apply extends_refl.
  cbn [snd]. apply extends_snoc. intros c [H|H]; [|discriminate].
  injection H as <-. eapply lookup_lt_Some; eauto.
Qed.

Lemma grows_perform (B : Builtins) (c : op_call) : grows (perform B c).
Proof.
  destruct c; cbn [perform];
    unfold __add__, __radd__, __sub__, __rsub__, __mul__, __rmul__, __pow__,
           __rpow__, __truediv__, __rtruediv__, __neg__, sin, cos,
           __add__, __mul__, __pow__;
    repeat first [ apply grows_leaf | apply grows_binary | apply grows_unary
                 | apply grows_bind; [|intros ?] ].
Qed.

(** X1: whatever the outcome (a node, an exception), an operator leaves
    every existing node exactly as it was: the heap after the call is
    the heap before it followed by the nodes the call allocated. *)
Theorem operators_only_allocate (B : Builtins) (c : op_call) (h : heap) :
  exists t, snd (perform B c h) = h ++ t /\
            forall r v, h !! r = Some v -> snd (perform B c h) !! r = Some v.
Proof.
  pose proof (grows_perform B c h) as G.
  destruct G as (t & E & Ht). exists t. split; [exact E|].
  intros r v Er. rewrite E. now apply lookup_app_l_Some.
Qed.

(** The heaps the operators can build, starting from nothing. *)
Inductive constructed (B : Builtins) : heap -> Prop :=
  | constructed_nil : constructed B []
  | constructed_call (h : heap) (c : op_call) :
      constructed B h -> constructed B (snd (perform B c h)).

(** X2: a graph built with the constructor and the operators is in
    allocation order (every node refers only to nodes built before it),
    hence acyclic, whatever sequence of calls built it and whichever of
    them raised. *)
Theorem constructed_graphs_are_ordered (B : Builtins) (h : heap) :
  constructed B h -> ordered h.
Proof.
  induction 1 as [|h c Hc IH].
  - intros i v c E. discriminate.
  - eapply extends_ordered; [exact IH|apply grows_perform].
Qed.

Lemma constructed_graphs_are_ordered_witness :
  ordered (snd (perform {| float_pow := fun _ _ => Stuck;
                           math_log := fun _ => Stuck;
                           math_sin := fun _ => Stuck;
                           math_cos := fun _ => Stuck |}
                        (Call_add 0%nat (ORaw (PInt 2)))
                        (snd (Variable_init (PInt 5) None None None true [])))).
Proof.
  apply (constructed_graphs_are_ordered
           {| float_pow := fun _ _ => Stuck; math_log := fun _ => Stuck;
              math_sin := fun _ => Stuck; math_cos := fun _ => Stuck |}).
  apply constructed_call.
  apply (constructed_call _ [] (Call_Variable (PInt 5) true)).
  apply constructed_nil.
Defined.

(** X3: on a graph built with the constructor and the operators,
    [backward()] from any node finishes, normally or with an exception,
    once it is given [work h (Some self)] units of fuel. *)
Theorem backward_terminates_on_constructed (B : Builtins) (h : heap)
    (self : ref) (fuel : nat) :
  constructed B h ->
  (work h (Some self) <= fuel)%nat ->
  exists tr out h', backward B fuel self h = Some (tr, (out, h')).
Proof.
  intros Hc Hf.
  assert (Ho : ordered h).
  { clear Hf. induction Hc as [|h c Hc IH].
    - intros i v c E. discriminate.
    - eapply extends_ordered; [exact IH|apply grows_perform]. }
  unfold backward, set_grad.
  destruct (h !! self) as [v|] eqn:E; [|eauto].
  destruct (backward_loop_terminates B h Ho fuel [Some self]
              (<[self := with_grad (Some (Int 1)) v]> h))
    as (tr & out & h' & L & _).
  - now apply same_shape_set_grad.
  - cbn. lia.
  - rewrite L. cbn [emit]. eauto.
Qed.

Lemma backward_terminates_on_constructed_witness :
  exists tr out h',
    backward {| float_pow := fun _ _ => Stuck; math_log := fun _ => Stuck;
                math_sin := fun _ => Stuck; math_cos := fun _ => Stuck |}
             1 0%nat
             (snd (perform {| float_pow := fun _ _ => Stuck;
                              math_log := fun _ => Stuck;
                              math_sin := fun _ => Stuck;
                              math_cos := fun _ => Stuck |}
                           (Call_Variable (PInt 5) true) []))
    = Some (tr, (out, h')).
Proof.
  apply backward_terminates_on_constructed.
  - apply constructed_call, constructed_nil.
  - vm_compute. lia.
Defined.

(** ** What construction leaves in a node *)

(** A node as an operator leaves it: [grad] is 0 or absent as
    [requires_grad] says, an operation is attached only when the node
    requires a gradient and has a left operand, and a right operand
    only comes with a left one. *)
Definition fresh (v : PyVariable) : Prop :=
  grad v = (if requires_grad v then Some (Int 0) else None) /\
  (forall f, _operation v = Some f ->
     requires_grad v = true /\ exists l, _left_node v = Some l) /\
  (forall r, _right_node v = Some r -> exists l, _left_node v = Some l).

Definition allocates_fresh {A} (m : M A) : Prop :=
  forall h, exists t, snd (m h) = h ++ t /\ Forall fresh t.

Lemma allocates_fresh_none {A} (m : M A) :
  (forall h, snd (m h) = h) -> allocates_fresh m.
Proof. intros E h. exists []. rewrite E, app_nil_r. auto. Qed.

Lemma allocates_fresh_bind {A C} (m : M A) (k : A -> M C) :
  allocates_fresh m -> (forall a, allocates_fresh (k a)) ->
  allocates_fresh (bind m k).
Proof.
  intros Hm Hk h. unfold bind. destruct (Hm h) as (t & E & Ft).
  destruct (m h) as [[a|e|] h1]; cbn [snd] in *; eauto.
  destruct (Hk a h1) as (u & E' & Fu). exists (t ++ u).
  rewrite E', E, app_assoc. split; [reflexivity|]. now apply Forall_app.
Qed.

Lemma allocates_fresh_init (value : pyobj) (op : option GradFunc)
    (l r : option ref) (rg : bool) :
  (forall f, op = Some f -> rg = true /\ exists x, l = Some x) ->
  (forall y, r = Some y -> exists x, l = Some x) ->
  allocates_fresh (Variable_init value op l r rg).
Proof.
  intros Hop Hr h. unfold Variable_init.
  destruct (_check_value value) as [n| |]; cbn [snd].
  - eexists. split; [reflexivity|]. apply Forall_singleton.
    split; [reflexivity|]. split; cbn; auto.
  - exists []. rewrite app_nil_r. auto.
  - exists []. rewrite app_nil_r. auto.
Qed.

Lemma allocates_fresh_binary (self : ref) (second : operand) op f :
  allocates_fresh (_binary_general_calc self second op f).
Proof.
  unfold _binary_general_calc.
  apply allocates_fresh_bind.
  - destruct second; [now apply allocates_fresh_none|].
    apply allocates_fresh_init; intros ? [=].
  - intros r. apply allocates_fresh_bind.
    { apply allocates_fresh_none. intros h. unfold get. now destruct (h !! self). }
    intros s. apply allocates_fresh_bind.
    { apply allocates_fresh_none. intros h. unfold get. now destruct (h !! r). }
    intros t. apply allocates_fresh_bind.
    { now apply allocates_fresh_none. }
    intros v. apply allocates_fresh_init.
    + destruct (requires_grad s || requires_grad t); intros g [=]. eauto.
    + eauto.
Qed.

Lemma allocates_fresh_unary (self : ref) op f :
  allocates_fresh (_unary_general_calc self op f).
Proof.
  unfold _unary_general_calc.
  apply allocates_fresh_bind.
  { apply allocates_fresh_none. intros h. unfold get. now destruct (h !! self). }
  intros s. apply allocates_fresh_bind.
  { now apply allocates_fresh_none. }
  intros v. apply allocates_fresh_init.
  - destruct (requires_grad s); intros g [=]. eauto.
  - intros y [=].
Qed.

Lemma allocates_fresh_perform (B : Builtins) (c : op_call) :
  allocates_fresh (perform B c).
Proof.
  destruct c; cbn [perform];
    unfold __add__, __radd__, __sub__, __rsub__, __mul__, __rmul__, __pow__,
           __rpow__, __truediv__, __rtruediv__, __neg__, sin, cos,
           __add__, __mul__, __pow__;
    repeat first
      [ apply allocates_fresh_binary | apply allocates_fresh_unary
      | apply allocates_fresh_init; intros ? [=]
      | apply allocates_fresh_bind; [|intros ?] ].
Qed.

(** X4: in a graph built with the constructor and the operators every
    node is as construction leaves it: [grad] is 0 when
    [requires_grad] is true and absent otherwise (no derivative is
    computed while the expression is built), an operation is attached
    only to nodes that require a gradient and have a left operand, and
    a right operand only comes with a left one. *)
Theorem constructed_nodes_are_fresh (B : Builtins) (h : heap) (r : ref)
    (v : PyVariable) :
  constructed B h -> h !! r = Some v -> fresh v.
Proof.
  intros Hc. revert r v. induction Hc as [|h c Hc IH]; intros r v E.
  - discriminate.
  - destruct (allocates_fresh_perform B c h) as (t & Et & Ft).
    rewrite Et in E. apply lookup_app_Some in E.
    destruct E as [E|[_ E]]; [eauto|].
    eapply Forall_lookup_1; eauto.
Qed.

Lemma constructed_nodes_are_fresh_witness :
  fresh (leaf (Int 5) true).
Proof.
  apply (constructed_nodes_are_fresh
           {| float_pow := fun _ _ => Stuck; math_log := fun _ => Stuck;
              math_sin := fun _ => Stuck; math_cos := fun _ => Stuck |}
           (snd (perform {| float_pow := fun _ _ => Stuck;
                            math_log := fun _ => Stuck;
                            math_sin := fun _ => Stuck;
                            math_cos := fun _ => Stuck |}
                         (Call_Variable (PInt 5) true) [])) 0%nat).
  - apply constructed_call, constructed_nil.
  - reflexivity.
Defined.

(** ** Operands and results that are not numbers *)

(** X5: an operator whose right operand is neither a node nor a number
    (a string, [None], a complex number) raises [ValueError], the error
    of the constructor it promotes the operand with, before anything is
    read or allocated; so does [c ** x] for such a [c]. *)
Theorem non_number_operand_rejected (B : Builtins) (self : ref) (o : pyobj)
    (h : heap) :
  _check_value o = Raise ValueError ->
  __add__ self (ORaw o) h = (Raise ValueError, h) /\
  __sub__ self (ORaw o) h = (Raise ValueError, h) /\
  __mul__ self (ORaw o) h = (Raise ValueError, h) /\
  __pow__ B self (ORaw o) h = (Raise ValueError, h) /\
  __truediv__ self (ORaw o) h = (Raise ValueError, h) /\
  __radd__ self o h = (Raise ValueError, h) /\
  __rmul__ self o h = (Raise ValueError, h) /\
  __rpow__ B self o h = (Raise ValueError, h).
Proof.
  intros E.
  assert (K : forall op f,
             _binary_general_calc self (ORaw o) op f h = (Raise ValueError, h)).
  { intros op f. unfold _binary_general_calc, bind, Variable_init.
    now rewrite E. }
  unfold __radd__, __rmul__, __add__, __sub__, __mul__, __pow__, __truediv__.
  rewrite !K. repeat split.
  unfold __rpow__, bind, Variable_init. now rewrite E.
Qed.

Lemma non_number_operand_rejected_witness :
  __add__ 0%nat (ORaw (PStr "a")) [leaf (Int 5) true]
  = (Raise ValueError, [leaf (Int 5) true]).
Proof.
  apply (non_number_operand_rejected
           {| float_pow := fun _ _ => Stuck; math_log := fun _ => Stuck;
              math_sin := fun _ => Stuck; math_cos := fun _ => Stuck |}
           0%nat (PStr "a") [leaf (Int 5) true] eq_refl).
Defined.

(** X6: when the power of two float-valued nodes is a complex number (a
    negative base with a fractional exponent), [x ** y] raises
    [ValueError]: the result does not pass the check of the value
    descriptor; no node is allocated. *)
Theorem complex_power_rejected (B : Builtins) (self r : ref) (h : heap)
    (s t : PyVariable) (a b : float) :
  h !! self = Some s -> h !! r = Some t ->
  value s = Float a -> value t = Float b ->
  float_pow B a b = Ok IsComplex ->
  __pow__ B self (OVar r) h = (Raise ValueError, h).
Proof.
  intros Es Et Va Vb Ep. unfold __pow__.
  rewrite (binary_calc_var _ _ _ _ _ _ _ Es Et), Va, Vb.
  unfold py_pow, py_float_pow. cbn [as_float rbind]. rewrite Ep.
  reflexivity.
Qed.

Lemma complex_power_rejected_witness :
  __pow__ {| float_pow := fun a _ =>
               if PrimFloat.ltb a 0%float then Ok IsComplex else Stuck;
             math_log := fun _ => Stuck; math_sin := fun _ => Stuck;
             math_cos := fun _ => Stuck |}
          0%nat (OVar 1%nat)
          [leaf (Float (-8)%float) true; leaf (Float 0.5%float) true]
  = (Raise ValueError,
     [leaf (Float (-8)%float) true; leaf (Float 0.5%float) true]).
Proof.
  apply (complex_power_rejected _ 0%nat 1%nat _
           (leaf (Float (-8)%float) true) (leaf (Float 0.5%float) true)
           (-8)%float 0.5%float); reflexivity.
Defined.

(** ** Unary operations *)

(** X7: [x.sin()] and [x.cos()] raise what [math.sin] or [math.cos]
    raises on [x.value] and then allocate nothing; otherwise they append
    one node holding the function's value, with [x] as its only
    operand, the [requires_grad] of [x], and the matching backward
    rule exactly when [x] requires a gradient. *)
Theorem unary_operations (B : Builtins) (self : ref) (h : heap)
    (s : PyVariable) :
  h !! self = Some s ->
  sin B self h
  = match math_sin B (value s) with
    | Ok y => (Ok (length h),
               h ++ [mkVariable (Float y) (requires_grad s)
                       (if requires_grad s then Some (Int 0) else None)
                       (if requires_grad s then Some Fn_sin_backward else None)
                       (Some self) None])
    | Raise e => (Raise e, h)
    | Stuck => (Stuck, h)
    end /\
  cos B self h
  = match math_cos B (value s) with
    | Ok y => (Ok (length h),
               h ++ [mkVariable (Float y) (requires_grad s)
                       (if requires_grad s then Some (Int 0) else None)
                       (if requires_grad s then Some Fn_cos_backward else None)
                       (Some self) None])
    | Raise e => (Raise e, h)
    | Stuck => (Stuck, h)
    end.
Proof.
  intros E. unfold sin, cos, _unary_general_calc, bind, get, lift.
  rewrite E. unfold py_sin, py_cos, num_result.
  split.
  - destruct (math_sin B (value s)); reflexivity.
  - destruct (math_cos B (value s)); reflexivity.
Qed.

Lemma unary_operations_witness :
  sin {| float_pow := fun _ _ => Stuck; math_log := fun _ => Stuck;
         math_sin := fun _ => Raise ValueError;
         math_cos := fun _ => Stuck |}
      0%nat [leaf (Float PrimFloat.infinity) true]
  = (Raise ValueError, [leaf (Float PrimFloat.infinity) true]).
Proof.
  apply (unary_operations
           {| float_pow := fun _ _ => Stuck; math_log := fun _ => Stuck;
              math_sin := fun _ => Raise ValueError;
              math_cos := fun _ => Stuck |}
           0%nat [leaf (Float PrimFloat.infinity) true]
           (leaf (Float PrimFloat.infinity) true) eq_refl).
Defined.

(** ** Negation *)

(** X8: [-x] never raises: it allocates the constant [-1] and the
    product [x * -1], whose value is the native negation of [x.value]
    (for a float, [x * -1.0] is exactly [-x]), and which always
    requires a gradient and carries the multiply rule. *)
Theorem negation_value (self : ref) (h : heap) (s : PyVariable) :
  h !! self = Some s ->
  __neg__ self h
  = (Ok (S (length h)),
     h ++ [leaf (Int (-1)) true;
           result_node (py_neg (value s)) Fn_mul_backward self (length h) true]).
Proof.
  intros E. unfold __neg__, __mul__.
  apply (binary_calc_raw_ok self (PInt (-1)) (Int (-1)) _ _ h s
           (of_Num (py_neg (value s))) (py_neg (value s)) E eq_refl);
    [|apply check_of_Num].
  unfold num_result, py_mul, arith. destruct (value s) as [a|f];
    cbn [as_float rbind py_neg of_Num].
  - do 2 f_equal. lia.
  - rewrite to_float_minus_one. cbn [rbind].
    now rewrite float_mul_minus_one.
Qed.

Lemma negation_value_witness :
  __neg__ 0%nat [leaf (Int 5) true]
  = (Ok 2%nat,
     [leaf (Int 5) true; leaf (Int (-1)) true;
      result_node (Int (-5)) Fn_mul_backward 0 1 true]).
Proof.
  exact (negation_value 0%nat [leaf (Int 5) true] (leaf (Int 5) true) eq_refl).
Defined.

(** ** What a backward rule writes *)

Lemma accumulate_frame (target self : ref) (d : Num) (h h' : heap)
    (out : result unit) :
  accumulate target d self h = (out, h') ->
  forall r, r <> target -> h' !! r = h !! r.
Proof.
  unfold accumulate, bind, get, lift, set_grad.
  destruct (h !! target) as [t|] eqn:Et; [|now intros [= _ <-]].
  destruct (h !! self) as [s|]; [|now intros [= _ <-]].
  destruct (mul_grad d (grad s)) as [p| |]; try now intros [= _ <-].
  destruct (add_grad (grad t) p) as [g| |]; try now intros [= _ <-].
  rewrite Et. intros [= _ <-] r Hr.
  now rewrite list_lookup_insert_ne by congruence.
Qed.

(** X9: [_general_grad_calc] writes nothing but the [grad] of the
    node's operands: every other node, the node itself included, is
    left as it was, whatever the outcome. *)
Theorem general_grad_calc_frame (self : ref) (ld rd : Num) (h h' : heap)
    (s : PyVariable) (out : result unit) :
  h !! self = Some s ->
  _general_grad_calc self ld rd h = (out, h') ->
  forall r, Some r <> _left_node s -> Some r <> _right_node s ->
            h' !! r = h !! r.
Proof.
  intros Es. unfold _general_grad_calc, bind, get, raise, ret.
  rewrite Es. destruct (_left_node s) as [lr|]; [|now intros [= _ <-]].
  destruct (h !! lr) as [l|]; [|now intros [= _ <-]].
  assert (K : forall h1 (o1 : result unit),
             (if requires_grad l
              then accumulate lr ld self
              else fun h0 => (Ok tt, h0)) h = (o1, h1) ->
             forall r, Some r <> Some lr -> h1 !! r = h !! r).
  { intros h1 o1. destruct (requires_grad l).
    - intros E r Hr. eapply accumulate_frame; eauto; congruence.
    - now intros [= _ <-]. }
  destruct ((if requires_grad l then accumulate lr ld self
             else fun h0 => (Ok tt, h0)) h) as [[[]|e|] h1] eqn:E1;
    [|intros [= _ <-] r Hl _; eapply K; eauto..].
  destruct (_right_node s) as [rr|].
  - destruct (h1 !! rr) as [rv|]; [|intros [= _ <-] r Hl _; eapply K; eauto].
    destruct (requires_grad rv).
    + intros E2 r Hl Hr. rewrite <- (K _ _ eq_refl r Hl).
      eapply accumulate_frame; eauto; congruence.
    + intros [= _ <-] r Hl _. eapply K; eauto.
  - intros [= _ <-] r Hl _. eapply K; eauto.
Qed.

(** [x = 2], [y = 3] and their sum, seeded. *)
Definition seeded_sum : heap :=
  [leaf (Int 2) true; leaf (Int 3) true;
   mkVariable (Int 5) true (Some (Int 1)) (Some Fn_add_backward)
     (Some 0%nat) (Some 1%nat)].

Lemma general_grad_calc_frame_witness :
  snd (_general_grad_calc 2%nat (Int 1) (Int 1) seeded_sum) !! 2%nat
  = seeded_sum !! 2%nat.
Proof.
  apply (general_grad_calc_frame 2%nat (Int 1) (Int 1) seeded_sum _
           (mkVariable (Int 5) true (Some (Int 1)) (Some Fn_add_backward)
              (Some 0%nat) (Some 1%nat)) _
           eq_refl (surjective_pairing _) 2%nat); discriminate.
Defined.

(** X10: when both operands of a node are the same node (as in
    [x + x] or [x * x]), that node receives both contributions, the
    second added to the result of the first. *)
Theorem shared_operand_gets_both (self lr : ref) (ld rd : Num) (h : heap)
    (s l : PyVariable) (gl g p1 g1 p2 g2 : Num) :
  h !! self = Some s -> h !! lr = Some l -> self <> lr ->
  _left_node s = Some lr -> _right_node s = Some lr ->
  requires_grad l = true -> grad l = Some gl -> grad s = Some g ->
  py_mul ld g = Ok p1 -> py_add gl p1 = Ok g1 ->
  py_mul rd g = Ok p2 -> py_add g1 p2 = Ok g2 ->
  _general_grad_calc self ld rd h
  = (Ok tt, <[lr := with_grad (Some g2) l]> h).
Proof.
  intros Es El N Ll Lr R Gl Gs M1 A1 M2 A2.
  assert (Ll' : (lr < length h)%nat) by (eapply lookup_lt_Some; eauto).
  unfold _general_grad_calc, bind, get. rewrite Es, Ll, El, R, Lr.
  rewrite (accumulate_adds _ _ _ _ _ _ _ _ El Es Gl Gs), M1. cbn [rbind].
  rewrite A1.
  rewrite list_lookup_insert_eq by exact Ll'.
  cbn [requires_grad with_grad]. rewrite R.
  erewrite accumulate_adds;
    [|apply list_lookup_insert_eq; exact Ll'
     |rewrite list_lookup_insert_ne by congruence; exact Es
     |reflexivity|exact Gs].
  rewrite M2. cbn [rbind]. rewrite A2.
  now rewrite list_insert_insert_eq.
Qed.

(** [x = 3] and [x * x], seeded. *)
Definition seeded_square : heap :=
  [leaf (Int 3) true;
   mkVariable (Int 9) true (Some (Int 1)) (Some Fn_mul_backward)
     (Some 0%nat) (Some 0%nat)].

Lemma shared_operand_gets_both_witness :
  _general_grad_calc 1%nat (Int 3) (Int 3) seeded_square
  = (Ok tt, <[0%nat := with_grad (Some (Int 6)) (leaf (Int 3) true)]>
              seeded_square).
Proof.
  apply (shared_operand_gets_both 1%nat 0%nat (Int 3) (Int 3) seeded_square
           (mkVariable (Int 9) true (Some (Int 1)) (Some Fn_mul_backward)
              (Some 0%nat) (Some 0%nat))
           (leaf (Int 3) true) (Int 0) (Int 1) (Int 3) (Int 3) (Int 3) (Int 6));
    try reflexivity.
  lia.
Defined.

(** X11: with two distinct operands that both require a gradient, each
    receives its own contribution, [derivative * self.grad], added to
    the gradient it held. *)
Theorem distinct_operands_get_one_each (self lr rr : ref) (ld rd : Num)
    (h : heap) (s l r : PyVariable) (gl gr g p1 g1 p2 g2 : Num) :
  h !! self = Some s -> h !! lr = Some l -> h !! rr = Some r ->
  self <> lr -> self <> rr -> lr <> rr ->
  _left_node s = Some lr -> _right_node s = Some rr ->
  requires_grad l = true -> requires_grad r = true ->
  grad l = Some gl -> grad r = Some gr -> grad s = Some g ->
  py_mul ld g = Ok p1 -> py_add gl p1 = Ok g1 ->
  py_mul rd g = Ok p2 -> py_add gr p2 = Ok g2 ->
  _general_grad_calc self ld rd h
  = (Ok tt, <[rr := with_grad (Some g2) r]> (<[lr := with_grad (Some g1) l]> h)).
Proof.
  intros Es El Er N1 N2 N3 Ll Lr Rl Rr Gl Gr Gs M1 A1 M2 A2.
  unfold _general_grad_calc, bind, get. rewrite Es, Ll, El, Rl, Lr.
  rewrite (accumulate_adds _ _ _ _ _ _ _ _ El Es Gl Gs), M1. cbn [rbind].
  rewrite A1.
  rewrite list_lookup_insert_ne by congruence. rewrite Er, Rr.
  erewrite accumulate_adds;
    [|rewrite list_lookup_insert_ne by congruence; exact Er
     |rewrite list_lookup_insert_ne by congruence; exact Es
     |exact Gr|exact Gs].
  rewrite M2. cbn [rbind]. now rewrite A2.
Qed.

(** [x = 2], [y = 3] and [x * y], seeded. *)
Definition seeded_product : heap :=
  [leaf (Int 2) true; leaf (Int 3) true;
   mkVariable (Int 6) true (Some (Int 1)) (Some Fn_mul_backward)
     (Some 0%nat) (Some 1%nat)].

Lemma distinct_operands_get_one_each_witness :
  _general_grad_calc 2%nat (Int 3) (Int 2) seeded_product
  = (Ok tt,
     <[1%nat := with_grad (Some (Int 2)) (leaf (Int 3) true)]>
       (<[0%nat := with_grad (Some (Int 3)) (leaf (Int 2) true)]>
          seeded_product)).
Proof.
  apply (distinct_operands_get_one_each 2%nat 0%nat 1%nat (Int 3) (Int 2)
           seeded_product
           (mkVariable (Int 6) true (Some (Int 1)) (Some Fn_mul_backward)
              (Some 0%nat) (Some 1%nat))
           (leaf (Int 2) true) (leaf (Int 3) true)
           (Int 0) (Int 0) (Int 1) (Int 3) (Int 3) (Int 2) (Int 2));
    try reflexivity; lia.
Defined.

(** ** What a backward pass writes *)

(** X12: a backward pass, finished normally or by an exception, writes
    nothing but [grad] fields: the heap keeps its nodes, each with its
    value, flag, operation and operands; and apart from the root, a
    node that does not require a gradient keeps its [grad] too. *)
Theorem backward_writes_only_grad (B : Builtins) (fuel : nat) (self : ref)
    (h h' : heap) (tr : list event) (out : result unit) :
  backward B fuel self h = Some (tr, (out, h')) ->
  length h' = length h /\
  forall r v, h !! r = Some v ->
    exists g, h' !! r = Some (with_grad g v) /\
              (r <> self -> requires_grad v = false -> g = grad v).
Proof.
  unfold backward, set_grad. intros E.
  destruct (h !! self) as [s|] eqn:Es.
  - destruct (backward_loop B fuel _ _) as [[tr' [out' h2]]|] eqn:L;
      cbn [emit] in E; [|discriminate].
    assert (h2 = h') as -> by congruence.
    apply backward_loop_evolves in L. destruct L as [Len L].
    rewrite length_insert in Len. split; [exact Len|].
    intros r v Er. destruct (decide (r = self)) as [->|N].
    + assert (v = s) as -> by congruence.
      destruct (L self (with_grad (Some (Int 1)) s)) as (g & E2 & _).
      { apply list_lookup_insert_eq. eapply lookup_lt_Some; eauto. }
      exists g. split; [exact E2|]. congruence.
    + destruct (L r v) as (g & E2 & K).
      { rewrite list_lookup_insert_ne by congruence. exact Er. }
      exists g. split; [exact E2|]. auto.
  - assert (h' = h) as -> by congruence. split; [reflexivity|].
    intros r v Er. exists (grad v). rewrite with_grad_same. auto.
Qed.

(** [seeded_sum] after [backward()] from the sum. *)
Definition seeded_sum_after : heap :=
  [mkVariable (Int 2) true (Some (Int 1)) None None None;
   mkVariable (Int 3) true (Some (Int 1)) None None None;
   mkVariable (Int 5) true (Some (Int 1)) (Some Fn_add_backward)
     (Some 0%nat) (Some 1%nat)].

Lemma backward_writes_only_grad_witness :
  length seeded_sum_after = length seeded_sum /\
  forall r v, seeded_sum !! r = Some v ->
    exists g, seeded_sum_after !! r = Some (with_grad g v) /\
              (r <> 2%nat -> requires_grad v = false -> g = grad v).
Proof.
  exact (backward_writes_only_grad
           {| float_pow := fun _ _ => Stuck; math_log := fun _ => Stuck;
              math_sin := fun _ => Stuck; math_cos := fun _ => Stuck |}
           3 2%nat seeded_sum seeded_sum_after
           [Push (Some 2%nat); Push (Some 0%nat); Push (Some 1%nat);
            Fire 2%nat]
           (Ok tt) eq_refl).
Defined.

(** X13: [backward()] on a node that has no operation, or does not
    require a gradient, only stores 1 in that node's [grad]: the loop
    pops the node and stops. *)
Theorem backward_on_leaf (B : Builtins) (fuel : nat) (h : heap) (self : ref)
    (v : PyVariable) :
  h !! self = Some v ->
  fires v = false ->
  backward B (S fuel) self h
  = Some ([Push (Some self)],
          (Ok tt, <[self := with_grad (Some (Int 1)) v]> h)).
Proof.
  intros E F.
  assert (L : (self < length h)%nat) by (eapply lookup_lt_Some; eauto).
  unfold backward. rewrite (set_grad_lookup _ _ _ _ E).
  cbn [backward_loop]. rewrite list_lookup_insert_eq by exact L.
  cbn [requires_grad _operation with_grad].
  destruct (not_fires_split _ F) as [-> | ->].
  - now rewrite backward_loop_nil.
  - destruct (requires_grad v); now rewrite backward_loop_nil.
Qed.

Lemma backward_on_leaf_witness :
  backward {| float_pow := fun _ _ => Stuck; math_log := fun _ => Stuck;
              math_sin := fun _ => Stuck; math_cos := fun _ => Stuck |}
           1 0%nat [mkVariable (Int 10) true (Some (Int 4)) None None None]
  = Some ([Push (Some 0%nat)],
          (Ok tt, [mkVariable (Int 10) true (Some (Int 1)) None None None])).
Proof.
  exact (backward_on_leaf _ 0
           [mkVariable (Int 10) true (Some (Int 4)) None None None] 0%nat
           (mkVariable (Int 10) true (Some (Int 4)) None None None)
           eq_refl eq_refl).
Defined.

(** ** The gradient is present exactly on the nodes that require it *)

Definition consistent (h : heap) : Prop :=
  forall r v, h !! r = Some v ->
    match grad v with
    | Some _ => requires_grad v = true
    | None => requires_grad v = false
    end.

Section Preserved.
(** Any relation between heaps that is a preorder and admits storing a
    gradient in a node that requires one is kept by the backward
    rules and by the loop. *)
Variable R : heap -> heap -> Prop.
Hypothesis R_refl : forall h, R h h.
Hypothesis R_trans : forall h1 h2 h3, R h1 h2 -> R h2 h3 -> R h1 h3.
Hypothesis R_store : forall h r v g,
  h !! r = Some v -> requires_grad v = true ->
  R h (<[r := with_grad (Some g) v]> h).

Definition holds {A} (m : M A) (h : heap) : Prop := R h (snd (m h)).

Lemma holds_bind {A C} (m : M A) (k : A -> M C) (h : heap) :
  holds m h ->
  (forall a h', m h = (Ok a, h') -> holds (k a) h') ->
  holds (bind m k) h.
Proof.
  unfold holds, bind. intros Hm Hk.
  destruct (m h) as [[a|e|] h'] eqn:E; cbn [snd] in *; auto.
  eapply R_trans; [exact Hm|]. now apply Hk.
Qed.

Lemma holds_get_bind {C} (r : ref) (k : PyVariable -> M C) (h : heap) :
  (forall v, h !! r = Some v -> holds (k v) h) ->
  holds (bind (get r) k) h.
Proof.
  intros Hk. unfold holds, bind, get.
  destruct (h !! r) as [v|] eqn:E; [now apply Hk|apply R_refl].
Qed.

Lemma holds_deref_bind {C} (o : option ref) (k : PyVariable -> M C)
    (h : heap) :
  (forall r v, o = Some r -> h !! r = Some v -> holds (k v) h) ->
  holds (bind (deref o) k) h.
Proof.
  intros Hk. destruct o as [r|]; [|apply R_refl].
  apply holds_get_bind. intros v E. now apply (Hk r).
Qed.

Lemma holds_lift_bind {A C} (x : result A) (k : A -> M C) (h : heap) :
  (forall a, x = Ok a -> holds (k a) h) ->
  holds (bind (lift x) k) h.
Proof.
  intros Hk. unfold holds, bind, lift.
  destruct x; [now apply Hk|apply R_refl..].
Qed.

Lemma holds_accumulate (target self : ref) (d : Num) (h : heap)
    (t : PyVariable) :
  h !! target = Some t -> requires_grad t = true ->
  holds (accumulate target d self) h.
Proof.
  intros E Rt. unfold accumulate.
  apply holds_get_bind; intros t' E'.
  apply holds_get_bind; intros s Es.
  apply holds_lift_bind; intros p _.
  apply holds_lift_bind; intros g _.
  unfold holds. rewrite (set_grad_lookup _ _ _ _ E).
  now apply R_store.
Qed.

Lemma holds_general_grad_calc (self : ref) (ld rd : Num) (h : heap) :
  holds (_general_grad_calc self ld rd) h.
Proof.
  unfold _general_grad_calc.
  apply holds_get_bind; intros s Es.
  destruct (_left_node s) as [lr|]; [|apply R_refl].
  apply holds_get_bind; intros l El.
  apply holds_bind.
  - destruct (requires_grad l) eqn:Rl;
      [eapply holds_accumulate; eauto|apply R_refl].
  - intros _ h' _.
    destruct (_right_node s) as [rr|]; [|apply R_refl].
    apply holds_get_bind; intros r Er.
    destruct (requires_grad r) eqn:Rr;
      [eapply holds_accumulate; eauto|apply R_refl].
Qed.

Lemma holds_call (B : Builtins) (f : GradFunc) (self : ref) (h : heap) :
  holds (call B f self) h.
Proof.
  destruct f; cbn [call];
    unfold _add_backward, _sub_backward, _mul_backward, _pow_backward,
           _truediv_backward, _sin_backward, _cos_backward;
    repeat first
      [ apply holds_general_grad_calc
      | apply holds_get_bind; intros ? ?
      | apply holds_deref_bind; intros ? ? ? ?
      | apply holds_lift_bind; intros ? ? ].
Qed.

Lemma holds_backward_loop (B : Builtins) (fuel : nat) :
  forall stack h tr out h',
    backward_loop B fuel stack h = Some (tr, (out, h')) -> R h h'.
Proof.
  induction fuel as [|fuel IH]; intros stack h tr out h'.
  - destruct stack; cbn; [|discriminate].
    intros E. assert (h' = h) as -> by congruence. apply R_refl.
  - destruct stack as [|[c|] rest]; cbn [backward_loop].
    + intros E. assert (h' = h) as -> by congruence. apply R_refl.
    + destruct (h !! c) as [v|] eqn:E;
        [|intros E'; assert (h' = h) as -> by congruence; apply R_refl].
      destruct (requires_grad v); [|apply IH].
      destruct (_operation v) as [f|]; [|apply IH].
      pose proof (holds_call B f c h) as K. unfold holds in K.
      destruct (call B f c h) as [[[]|e|] h1] eqn:C; cbn [snd] in K;
        try (intros E'; assert (h' = h1) as -> by congruence; exact K).
      destruct (backward_loop B fuel _ h1) as [[tr' [out' h2]]|] eqn:L;
        cbn [emit]; [|discriminate].
      intros E'. assert (h' = h2) as -> by congruence.
      eapply R_trans; [exact K|]. eapply IH; eauto.
    + apply IH.
Qed.
End Preserved.

Lemma consistent_store (h : heap) (r : ref) (v : PyVariable) (g : Num) :
  h !! r = Some v -> requires_grad v = true ->
  consistent h -> consistent (<[r := with_grad (Some g) v]> h).
Proof.
  intros E Rv Hc r' v' E'. destruct (decide (r = r')) as [<-|N].
  - rewrite list_lookup_insert_eq in E' by (eapply lookup_lt_Some; eauto).
    assert (v' = with_grad (Some g) v) as -> by congruence. exact Rv.
  - rewrite list_lookup_insert_ne in E' by exact N. exact (Hc r' v' E').
Qed.

(** X14: the data-model invariant "[grad] is present exactly when
    [requires_grad] is true" holds on every graph the operators build,
    is kept by every operator, by [zero_grad], and by a backward pass
    started from a node that requires a gradient (finished normally or
    by an exception). *)
Theorem grad_presence_invariant (B : Builtins) (h : heap) :
  (constructed B h -> consistent h) /\
  (forall c, consistent h -> consistent (snd (perform B c h))) /\
  (forall self, consistent h -> consistent (snd (zero_grad self h))) /\
  (forall fuel self v tr out h',
     consistent h -> h !! self = Some v -> requires_grad v = true ->
     backward B fuel self h = Some (tr, (out, h')) -> consistent h').
Proof.
  assert (Hop : forall h0 c,
             consistent h0 -> consistent (snd (perform B c h0))).
  { intros h0 c Hc r v E.
    destruct (allocates_fresh_perform B c h0) as (t & Et & Ft).
    rewrite Et in E. apply lookup_app_Some in E.
    destruct E as [E|[_ E]]; [exact (Hc r v E)|].
    destruct (Forall_lookup_1 _ _ _ _ Ft E) as (G & _). rewrite G.
    now destruct (requires_grad v). }
  split; [|split; [|split]].
  - intros Hc. induction Hc as [|h c Hc IH].
    + intros r v E. discriminate.
    + now apply Hop.
  - intros c. apply Hop.
  - intros self Hc. unfold zero_grad, bind, get.
    destruct (h !! self) as [s|] eqn:Es; [|exact Hc].
    destruct (requires_grad s) eqn:Rs; cbn [negb]; [|exact Hc].
    rewrite (set_grad_lookup _ _ _ _ Es). cbn [snd].
    now apply consistent_store.
  - intros fuel self v tr out h' Hc Es Rv. unfold backward.
    rewrite (set_grad_lookup _ _ _ _ Es).
    destruct (backward_loop B fuel _ _) as [[tr' [out' h2]]|] eqn:L;
      cbn [emit]; [|discriminate].
    intros E. assert (h2 = h') as -> by congruence.
    refine (holds_backward_loop (fun a b => consistent a -> consistent b)
              _ _ _ B fuel _ _ _ _ _ L _).
    + auto.
    + auto.
    + intros h0 r v0 g E0 R0. now apply consistent_store.
    + now apply consistent_store.
Qed.

Lemma grad_presence_invariant_witness :
  consistent seeded_sum_after.
Proof.
  destruct (grad_presence_invariant
              {| float_pow := fun _ _ => Stuck; math_log := fun _ => Stuck;
                 math_sin := fun _ => Stuck; math_cos := fun _ => Stuck |}
              seeded_sum) as (_ & _ & _ & Hb).
  apply (Hb 3%nat 2%nat
            (mkVariable (Int 5) true (Some (Int 1)) (Some Fn_add_backward)
               (Some 0%nat) (Some 1%nat))
            [Push (Some 2%nat); Push (Some 0%nat); Push (Some 1%nat);
             Fire 2%nat] (Ok tt) seeded_sum_after).
  - intros [|[|[|r]]] v E; cbn in E; try discriminate;
      assert (Some v = Some v) by reflexivity;
      injection E as <-; reflexivity.
  - reflexivity.
  - reflexivity.
  - reflexivity.
Defined.

(** ** The rules of addition, subtraction and multiplication *)

(** [x = Variable(a); y = Variable(b); f = x op y] *)
Definition on_two_leaves (op : ref -> operand -> M ref) (a b : Z) : M ref :=
  x <- Variable_init (PInt a) None None None true ;;
  y <- Variable_init (PInt b) None None None true ;;
  op x (OVar y).

(** The gradients of [x], [y] and [f] after one [f.backward()] and
    after a second one with no [zero_grad] in between. *)
Definition two_passes (B : Builtins) (op : ref -> operand -> M ref)
    (a b : Z) : option (list (option (option Num)) *
                        list (option (option Num))) :=
  match on_two_leaves op a b [] with
  | (Ok f, h) =>
      match backward B 3 f h with
      | Some (_, (Ok _, h1)) =>
          match backward B 3 f h1 with
          | Some (_, (Ok _, h2)) =>
              Some ([grad_at h1 0%nat; grad_at h1 1%nat; grad_at h1 f],
                    [grad_at h2 0%nat; grad_at h2 1%nat; grad_at h2 f])
          | _ => None
          end
      | _ => None
      end
  | _ => None
  end.

Definition grads (gx gy gf : Z) : list (option (option Num)) :=
  [Some (Some (Int gx)); Some (Some (Int gy)); Some (Some (Int gf))].

(** X15: for integer leaves [x = a] and [y = b], one backward pass from
    [x + y], [x - y] or [x * y] leaves the partial derivatives of the
    table in [x.grad] and [y.grad] ((1, 1), (1, -1) and (b, a)); a
    second pass without [zero_grad] re-seeds the root to 1 and adds the
    same contributions again to the leaves. *)
Theorem rules_on_integer_leaves (B : Builtins) (a b : Z) :
  two_passes B __add__ a b = Some (grads 1 1 1, grads 2 2 1) /\
  two_passes B __sub__ a b = Some (grads 1 (-1) 1, grads 2 (-2) 1) /\
  two_passes B __mul__ a b = Some (grads b a 1, grads (2 * b) (2 * a) 1).
Proof.
  Local Opaque Z.add Z.mul Z.sub.
  assert (Hadd : exists u v w x y z,
             two_passes B __add__ a b
             = Some (grads u v w, grads x y z) /\
             (u = 1 /\ v = 1 /\ w = 1 /\ x = 2 /\ y = 2 /\ z = 1)).
  { eexists _, _, _, _, _, _. split; [lazy; reflexivity|].
    Local Transparent Z.add Z.mul Z.sub. repeat split; lia. }
  Local Opaque Z.add Z.mul Z.sub.
  assert (Hsub : exists u v w x y z,
             two_passes B __sub__ a b
             = Some (grads u v w, grads x y z) /\
             (u = 1 /\ v = -1 /\ w = 1 /\ x = 2 /\ y = -2 /\ z = 1)).
  { eexists _, _, _, _, _, _. split; [lazy; reflexivity|].
    Local Transparent Z.add Z.mul Z.sub. repeat split; lia. }
  Local Opaque Z.add Z.mul Z.sub.
  assert (Hmul : exists u v w x y z,
             two_passes B __mul__ a b
             = Some (grads u v w, grads x y z) /\
             (u = b /\ v = a /\ w = 1 /\ x = 2 * b /\ y = 2 * a /\ z = 1)).
  { eexists _, _, _, _, _, _. split; [lazy; reflexivity|].
    Local Transparent Z.add Z.mul Z.sub. repeat split; lia. }
  destruct Hadd as (? & ? & ? & ? & ? & ? & -> & -> & -> & -> & -> & -> & ->).
  destruct Hsub as (? & ? & ? & ? & ? & ? & -> & -> & -> & -> & -> & -> & ->).
  destruct Hmul as (? & ? & ? & ? & ? & ? & -> & -> & -> & -> & -> & -> & ->).
  auto.
Qed.

(** ** Gradients through the reversed operators *)

(** [x = Variable(a); f = c op x] *)
Definition on_reversed (op : ref -> pyobj -> M ref) (a c : Z) : M ref :=
  x <- Variable_init (PInt a) None None None true ;;
  op x (PInt c).

Definition grad_of_leaf (B : Builtins) (op : ref -> pyobj -> M ref)
    (a c : Z) : option (option (option Num)) :=
  match on_reversed op a c [] with
  | (Ok f, h) =>
      match backward B 7 f h with
      | Some (_, (Ok _, h1)) => Some (grad_at h1 0%nat)
      | _ => None
      end
  | _ => None
  end.

(** X16: for an integer leaf [x] and an integer [c], a backward pass
    from [c + x], [c - x] or [c * x] returns normally and leaves 1, -1
    and [c] in [x.grad]: the delegation to [x + c], [-x + c] and
    [x * c] differentiates as the operation written. *)
Theorem reversed_operators_differentiate (B : Builtins) (a c : Z) :
  grad_of_leaf B __radd__ a c = Some (Some (Some (Int 1))) /\
  grad_of_leaf B __rsub__ a c = Some (Some (Some (Int (-1)))) /\
  grad_of_leaf B __rmul__ a c = Some (Some (Some (Int c))).
Proof.
  Local Opaque Z.add Z.mul Z.sub.
  assert (H : exists u v w,
             (grad_of_leaf B __radd__ a c = Some (Some (Some (Int u))) /\
              grad_of_leaf B __rsub__ a c = Some (Some (Some (Int v))) /\
              grad_of_leaf B __rmul__ a c = Some (Some (Some (Int w)))) /\
             (u = 1 /\ v = -1 /\ w = c)).
  { eexists _, _, _. split.
    - split; [lazy; reflexivity|]. split; lazy; reflexivity.
    - Local Transparent Z.add Z.mul Z.sub. repeat split; lia. }
  destruct H as (? & ? & ? & H & -> & -> & ->). exact H.
Qed.

(** ** The power rule on integers *)

(** X17: for an integer base [a] and an integer exponent [n >= 1], the
    derivative [_pow_backward] computes for the base is exactly
    [n * a ** (n - 1)], in integer arithmetic: no float and no builtin
    is involved. *)
Theorem power_rule_on_integers (B : Builtins) (a n : Z) :
  1 <= n ->
  pow_left_derivative B (Int a) (Int n) = Ok (Int (n * a ^ (n - 1))).
Proof.
  intros Hn. unfold pow_left_derivative, py_sub, py_mul, arith, py_pow.
  cbn [rbind]. destruct (0 <=? n - 1) eqn:E.
  - reflexivity.
  - apply Z.leb_gt in E. lia.
Qed.

Lemma power_rule_on_integers_witness :
  pow_left_derivative
    {| float_pow := fun _ _ => Stuck; math_log := fun _ => Stuck;
       math_sin := fun _ => Stuck; math_cos := fun _ => Stuck |}
    (Int 2) (Int 2) = Ok (Int (2 * 2 ^ (2 - 1))).
Proof.
  apply power_rule_on_integers. lia.
Defined.

(** ** Assigning to [value] *)

Definition with_value (n : Num) (v : PyVariable) : PyVariable :=
  mkVariable n (requires_grad v) (grad v)
             (_operation v) (_left_node v) (_right_node v).

(** [VariableDescriptor.__set__]: [instance.value = value] *)
Definition set_value (r : ref) (value : pyobj) : M unit :=
  fun h =>
    match _check_value value with
    | Ok n =>
        match h !! r with
        | Some v => (Ok tt, <[r := with_value n v]> h)
        | None => (Stuck, h)
        end
    | Raise e => (Raise e, h)
    | Stuck => (Stuck, h)
    end.

(** [VariableDescriptor.__get__]: [instance.value] *)
Definition get_value (r : ref) : M Num :=
  v <- get r ;;
  ret (value v).

(** X18: assigning to [value] goes through the same check as
    construction: a non-number raises [ValueError] and changes
    nothing; a number is stored and read back by the next access, and
    nothing else changes, neither the other fields of the node nor any
    other node (the values computed from the old one are not
    recomputed). *)
Theorem value_assignment (r : ref) (o : pyobj) (h : heap) (v : PyVariable) :
  h !! r = Some v ->
  match _check_value o with
  | Ok n =>
      set_value r o h = (Ok tt, <[r := with_value n v]> h) /\
      get_value r (<[r := with_value n v]> h)
      = (Ok n, <[r := with_value n v]> h) /\
      forall r', r' <> r -> (<[r := with_value n v]> h) !! r' = h !! r'
  | _ => set_value r o h = (Raise ValueError, h)
  end.
Proof.
  intros E. unfold set_value, get_value, bind, get, ret.
  destruct o; cbn [_check_value]; try reflexivity; rewrite E;
    (split; [reflexivity|]);
    rewrite list_lookup_insert_eq by (eapply lookup_lt_Some; eauto);
    (split; [reflexivity|]);
    intros r' N; now rewrite list_lookup_insert_ne by congruence.
Qed.

Lemma value_assignment_witness :
  set_value 0%nat (PStr "a") [leaf (Int 5) true]
  = (Raise ValueError, [leaf (Int 5) true]).
Proof.
  exact (value_assignment 0%nat (PStr "a") [leaf (Int 5) true]
           (leaf (Int 5) true) eq_refl).
Defined.

(** ** The rules of sine and cosine *)

Lemma one_spec : Prim2SF 1%float = S754_finite false 4503599627370496 (-52).
Proof. reflexivity. Qed.

Lemma to_float_one : to_float 1 = Ok 1%float.
Proof. reflexivity. Qed.

Lemma SFmul_one (x : spec_float) :
  valid_binary x = true ->
  SFmul prec emax x (S754_finite false 4503599627370496 (-52)) = x.
Proof.
  destruct x as [sx|sx| |sx mx ex]; intros Hv; cbn [SFmul];
    rewrite ?xorb_false_r; try reflexivity.
  now apply round_shifted.
Qed.

(** [x * 1.0 = x] *)
Lemma float_mul_one (x : float) : (x * 1 = x)%float.
Proof.
  apply Prim2SF_inj. rewrite mul_spec, one_spec.
  apply SFmul_one, Prim2SF_valid.
Qed.

(** [0.0 + x] is [x], or [0.0] when [x] is [-0.0]. *)
Lemma float_zero_add (x : float) :
  (0 + x = x)%float \/ ((0 + x)%float = 0%float /\ PrimFloat.eqb 0 x = true).
Proof.
  destruct (Prim2SF x) as [[]|s| |s m e] eqn:G.
  - right. split.
    + apply Prim2SF_inj. rewrite add_spec, G. reflexivity.
    + rewrite FloatAxioms.eqb_spec, G. reflexivity.
  - left. apply Prim2SF_inj. rewrite add_spec, G. reflexivity.
  - left. apply Prim2SF_inj. rewrite add_spec, G. reflexivity.
  - left. apply Prim2SF_inj. rewrite add_spec, G. reflexivity.
  - left. apply Prim2SF_inj. rewrite add_spec, G. reflexivity.
Qed.

(** The gradient a fresh leaf holds after one contribution [d * 1]. *)
Lemma first_contribution (d : float) :
  exists g,
    rbind (py_mul (Float d) (Int 1)) (fun p => py_add (Int 0) p) = Ok g /\
    same_value g (Float d).
Proof.
  unfold py_mul, py_add, arith. cbn [as_float rbind].
  rewrite to_float_one. cbn [rbind]. rewrite to_float_zero. cbn [rbind].
  eexists. split; [reflexivity|]. rewrite float_mul_one.
  destruct (float_zero_add d) as [->|[-> E]]; [now left|].
  right. eexists _, _. split; [reflexivity|]. split; [reflexivity|exact E].
Qed.

(** [x = Variable(n); f = x.sin()] or [x.cos()], and [f.backward()]. *)
Definition unary_pass (B : Builtins) (op : ref -> M ref) (n : Num)
    : option (option (option Num)) :=
  match (x <- Variable_init (of_Num n) None None None true ;; op x) [] with
  | (Ok f, h) =>
      match backward B 3 f h with
      | Some (_, (Ok _, h')) => Some (grad_at h' 0%nat)
      | _ => None
      end
  | _ => None
  end.

Lemma unary_pass_step (B : Builtins) (n : Num) (v d : float)
    (f : GradFunc) (g : Num) :
  call B f 1%nat
    [leaf n true; mkVariable (Float v) true (Some (Int 1)) (Some f)
                    (Some 0%nat) None]
  = (Ok tt,
     [with_grad (Some g) (leaf n true);
      mkVariable (Float v) true (Some (Int 1)) (Some f) (Some 0%nat) None]) ->
  backward B 3 1%nat
    [leaf n true; mkVariable (Float v) true (Some (Int 0)) (Some f)
                    (Some 0%nat) None]
  = Some ([Push (Some 1%nat); Push (Some 0%nat); Push None; Fire 1%nat],
          (Ok tt,
           [with_grad (Some g) (leaf n true);
            mkVariable (Float v) true (Some (Int 1)) (Some f)
              (Some 0%nat) None])).
Proof.
  intros E. unfold backward, set_grad.
  cbn [lookup list_lookup insert list_insert with_grad value requires_grad
       _operation _left_node _right_node grad backward_loop].
  unfold with_grad, leaf in *.
  cbn [value requires_grad _operation _left_node _right_node grad] in *.
  rewrite E. reflexivity.
Qed.

Lemma unary_rule_step (n : Num) (v d : float) (f : GradFunc) :
  exists g,
    _general_grad_calc 1%nat (Float d) (Int 0)
      [leaf n true; mkVariable (Float v) true (Some (Int 1)) (Some f)
                      (Some 0%nat) None]
    = (Ok tt,
       [with_grad (Some g) (leaf n true);
        mkVariable (Float v) true (Some (Int 1)) (Some f) (Some 0%nat) None])
    /\ same_value g (Float d).
Proof.
  destruct (first_contribution d) as (g & Eg & Hg). exists g.
  split; [|exact Hg].
  unfold _general_grad_calc, bind, get, ret.
  cbn [lookup list_lookup _left_node _right_node requires_grad leaf].
  erewrite accumulate_adds; [|reflexivity|reflexivity|reflexivity|reflexivity].
  rewrite Eg. reflexivity.
Qed.

(** X19: for a leaf [x] holding any number, a backward pass from
    [x.sin()] returns normally and leaves [cos(x.value)] in [x.grad],
    and one from [x.cos()] leaves [-sin(x.value)] (as a float equal
    under [==]: the accumulation [0 + d * 1] turns [-0.0] into
    [0.0]). *)
Theorem rules_of_sine_and_cosine (B : Builtins) (n : Num) (y c : float) :
  math_sin B n = Ok y ->
  math_cos B n = Ok c ->
  (exists g, unary_pass B (sin B) n = Some (Some (Some g)) /\
             same_value g (Float c)) /\
  (exists g, unary_pass B (cos B) n = Some (Some (Some g)) /\
             same_value g (Float (- y))).
Proof.
  intros Hs Hc. unfold unary_pass, bind.
  rewrite (Variable_init_number _ _ _ _ _ _ _ (check_of_Num n)).
  change ([] ++ [mkVariable n true (Some (Int 0)) None None None])
    with [leaf n true].
  cbn [length]. unfold sin, cos, _unary_general_calc, bind, get, lift.
  cbn [lookup list_lookup value requires_grad leaf].
  unfold py_sin, py_cos, num_result. rewrite Hs. cbn [rbind of_Num].
  unfold Variable_init. cbn [_check_value length app].
  split.
  - destruct (unary_rule_step n y c Fn_sin_backward) as (g & Eg & Hg).
    exists g. split; [|exact Hg].
    rewrite (unary_pass_step B n y c Fn_sin_backward g); [reflexivity|].
    cbn [call]. unfold _sin_backward, deref; unfold bind, get, lift, num_result.
    cbn [lookup list_lookup value _left_node leaf].
    unfold py_cos. rewrite Hc. cbn [rbind]. exact Eg.
  - rewrite Hc. cbn [rbind of_Num _check_value length app].
    destruct (unary_rule_step n c (- y)%float Fn_cos_backward) as (g & Eg & Hg).
    exists g. split; [|exact Hg].
    rewrite (unary_pass_step B n c (- y)%float Fn_cos_backward g); [reflexivity|].
    cbn [call]. unfold _cos_backward, deref; unfold bind, get, lift, num_result.
    cbn [lookup list_lookup value _left_node leaf].
    unfold py_sin. rewrite Hs. cbn [rbind py_neg]. exact Eg.
Qed.

Lemma rules_of_sine_and_cosine_witness :
  exists g,
    unary_pass {| float_pow := fun _ _ => Stuck; math_log := fun _ => Stuck;
                  math_sin := fun _ => Ok 0%float;
                  math_cos := fun _ => Ok 1%float |}
               (sin {| float_pow := fun _ _ => Stuck;
                       math_log := fun _ => Stuck;
                       math_sin := fun _ => Ok 0%float;
                       math_cos := fun _ => Ok 1%float |})
               (Float 0%float) = Some (Some (Some g)) /\
    same_value g (Float 1%float).
Proof.
  apply (rules_of_sine_and_cosine
           {| float_pow := fun _ _ => Stuck; math_log := fun _ => Stuck;
              math_sin := fun _ => Ok 0%float;
              math_cos := fun _ => Ok 1%float |}
           (Float 0%float) 0%float 1%float eq_refl eq_refl).
Defined.

(** ** The exponent rule of the power operation *)













